(** * Dart entity extractor ([codegraphcontext/dart.py]): model and properties

    The module walks a tree-sitter syntax tree and turns pattern-query
    captures into entity records.  The syntax-tree engine and the file system
    are external collaborators: the tree, the query results and the file
    contents are inputs of the model.  Everything the Python code itself
    computes (capture ordering, bucketing, name resolution, parameter
    extraction, span and body resolution, documentation lookup, complexity
    census, import records, pre-scan index) is transcribed below. *)

From Stdlib Require Import String Ascii List Arith Bool Lia Sorted.
From stdpp Require Import base option list strings gmap.
Import ListNotations.
Local Open Scope string_scope.
Local Open Scope list_scope.
#[local] Set Warnings "-register-all".

(* ===================================================================== *)
(** ** Python string operations used by the module *)
(* ===================================================================== *)

(** A Python [str] is represented by its UTF-8 bytes.  Node text is a slice of
    the UTF-8 source at token boundaries, so [bytes.decode("utf-8")] is the
    identity on this representation. *)
Module Py.

(** [sub in s] *)
Fixpoint contains (sub s : string) : bool :=
  String.prefix sub s ||
  match s with
  | EmptyString => false
  | String _ s' => contains sub s'
  end.

(** [x in (a, b, c)] for strings *)
Definition str_in (x : string) (l : list string) : bool :=
  existsb (String.eqb x) l.

Definition chr_in (c : ascii) (l : list ascii) : bool :=
  existsb (Ascii.eqb c) l.

(** [s.lstrip(chars)], [s.rstrip(chars)], [s.strip(chars)] for a set of
    ASCII characters. *)
Fixpoint lstrip_chars (chars : list ascii) (s : string) : string :=
  match s with
  | EmptyString => EmptyString
  | String c s' => if chr_in c chars then lstrip_chars chars s' else s
  end.

Definition rstrip_chars (chars : list ascii) (s : string) : string :=
  String.rev (lstrip_chars chars (String.rev s)).

Definition strip_chars (chars : list ascii) (s : string) : string :=
  rstrip_chars chars (lstrip_chars chars s).

(** Whitespace in the sense of [str.isspace], on the UTF-8 encoding.
    One byte: U+0009..U+000D, U+001C..U+001F, U+0020.
    Two bytes: U+0085 (C2 85), U+00A0 (C2 A0).
    Three bytes: U+1680 (E1 9A 80), U+2000..U+200A (E2 80 80..8A),
    U+2028, U+2029 (E2 80 A8/A9), U+202F (E2 80 AF), U+205F (E2 81 9F),
    U+3000 (E3 80 80). *)
Definition ws1 (a : ascii) : bool :=
  let n := nat_of_ascii a in
  (Nat.leb 9 n && Nat.leb n 13) || (Nat.leb 28 n && Nat.leb n 32).

Definition ws2 (a b : ascii) : bool :=
  Nat.eqb (nat_of_ascii a) 194 &&
  (Nat.eqb (nat_of_ascii b) 133 || Nat.eqb (nat_of_ascii b) 160).

Definition ws3 (a b c : ascii) : bool :=
  let x := nat_of_ascii a in
  let y := nat_of_ascii b in
  let z := nat_of_ascii c in
  (Nat.eqb x 225 && Nat.eqb y 154 && Nat.eqb z 128) ||
  (Nat.eqb x 226 && Nat.eqb y 128 &&
     ((Nat.leb 128 z && Nat.leb z 138) ||
      Nat.eqb z 168 || Nat.eqb z 169 || Nat.eqb z 175)) ||
  (Nat.eqb x 226 && Nat.eqb y 129 && Nat.eqb z 159) ||
  (Nat.eqb x 227 && Nat.eqb y 128 && Nat.eqb z 128).

Fixpoint lstrip (s : string) : string :=
  match s with
  | EmptyString => EmptyString
  | String a s1 =>
      if ws1 a then lstrip s1
      else match s1 with
           | EmptyString => s
           | String b s2 =>
               if ws2 a b then lstrip s2
               else match s2 with
                    | EmptyString => s
                    | String c s3 => if ws3 a b c then lstrip s3 else s
                    end
           end
  end.

(** The same scan on the reversed byte sequence: in valid UTF-8 the last
    one, two or three bytes spell a whitespace character exactly when the
    last character is that character. *)
Fixpoint lstrip_rev (s : string) : string :=
  match s with
  | EmptyString => EmptyString
  | String a s1 =>
      if ws1 a then lstrip_rev s1
      else match s1 with
           | EmptyString => s
           | String b s2 =>
               if ws2 b a then lstrip_rev s2
               else match s2 with
                    | EmptyString => s
                    | String c s3 => if ws3 c b a then lstrip_rev s3 else s
                    end
           end
  end.

(** [s.strip()] *)
Definition strip (s : string) : string :=
  String.rev (lstrip_rev (String.rev (lstrip s))).

(** [sep.join(l)] *)
Definition join (sep : string) (l : list string) : string :=
  String.concat sep l.

(** Truthiness of an [Optional[str]]: [None] and the empty string are
    falsy. *)
Definition truthy (o : option string) : bool :=
  match o with
  | None => false
  | Some EmptyString => false
  | Some (String _ _) => true
  end.

(** [b[lo:hi]] on bytes (clipped at the end, empty when [hi <= lo]). *)
Definition slice (lo hi : nat) (b : string) : string :=
  substring lo (hi - lo) b.

End Py.

(* ===================================================================== *)
(** ** The syntax tree as the engine exposes it *)
(* ===================================================================== *)

Module TS.

Definition Point : Type := nat * nat.   (* (row, column), both 0-based *)

(** The data a node carries besides its children.  [field] is the field
    name under which the node hangs in its parent, if any. *)
Record Info := {
  type : string;
  is_named : bool;
  field : option string;
  start_byte : nat;
  end_byte : nat;
  start_point : Point;
  end_point : Point;
}.

Inductive Syntax := Syn (i : Info) (cs : list Syntax).

Definition info (t : Syntax) : Info := let 'Syn i _ := t in i.
Definition subtrees (t : Syntax) : list Syntax := let 'Syn _ cs := t in cs.

(** One level of context: the parent's own data, the siblings to the left
    (nearest first) and the siblings to the right. *)
Record Frame := {
  f_info : Info;
  f_left : list Syntax;
  f_right : list Syntax;
}.

(** A [Node] object: a position in a tree together with the source bytes
    the tree was parsed from.  [parent], [prev_sibling],
    [next_named_sibling] and [children] are the engine's navigation
    attributes. *)
Record Node := {
  source : string;
  focus : Syntax;
  ctx : list Frame;
}.

Definition plug (f : Frame) (t : Syntax) : Syntax :=
  Syn (f_info f) (rev_append (f_left f) (t :: f_right f)).

Definition node_info (n : Node) : Info := info (focus n).
Definition node_type (n : Node) : string := type (node_info n).

Definition parent (n : Node) : option Node :=
  match ctx n with
  | [] => None
  | f :: up => Some {| source := source n; focus := plug f (focus n); ctx := up |}
  end.

Definition prev_sibling (n : Node) : option Node :=
  match ctx n with
  | [] => None
  | f :: up =>
      match f_left f with
      | [] => None
      | p :: l =>
          Some {| source := source n; focus := p;
                  ctx := {| f_info := f_info f; f_left := l;
                            f_right := focus n :: f_right f |} :: up |}
      end
  end.

Definition next_sibling (n : Node) : option Node :=
  match ctx n with
  | [] => None
  | f :: up =>
      match f_right f with
      | [] => None
      | c :: r =>
          Some {| source := source n; focus := c;
                  ctx := {| f_info := f_info f; f_left := focus n :: f_left f;
                            f_right := r |} :: up |}
      end
  end.

(** The first sibling to the right that is a named node. *)
Fixpoint next_named_from (src : string) (i : Info) (up : list Frame)
    (left : list Syntax) (right : list Syntax) : option Node :=
  match right with
  | [] => None
  | c :: r =>
      if is_named (info c)
      then Some {| source := src; focus := c;
                   ctx := {| f_info := i; f_left := left; f_right := r |} :: up |}
      else next_named_from src i up (c :: left) r
  end.

Definition next_named_sibling (n : Node) : option Node :=
  match ctx n with
  | [] => None
  | f :: up =>
      next_named_from (source n) (f_info f) up (focus n :: f_left f) (f_right f)
  end.

Fixpoint children_from (src : string) (i : Info) (up : list Frame)
    (left : list Syntax) (right : list Syntax) : list Node :=
  match right with
  | [] => []
  | c :: r =>
      {| source := src; focus := c;
         ctx := {| f_info := i; f_left := left; f_right := r |} :: up |}
      :: children_from src i up (c :: left) r
  end.

Definition children (n : Node) : list Node :=
  children_from (source n) (node_info n) (ctx n) [] (subtrees (focus n)).

(** [node.child_by_field_name(name)]: the first child under that field. *)
Definition has_field (name : string) (c : Node) : bool :=
  match field (node_info c) with
  | Some f => String.eqb f name
  | None => false
  end.

Definition child_by_field_name (n : Node) (name : string) : option Node :=
  List.find (has_field name) (children n).

(** [node.text]: the slice of the source between the node's byte offsets. *)
Definition text (n : Node) : string :=
  Py.slice (start_byte (node_info n)) (end_byte (node_info n)) (source n).

(** The chain [n, n.parent, n.parent.parent, ...] up to the root. *)
Fixpoint ancestors_from (src : string) (t : Syntax) (up : list Frame) : list Node :=
  {| source := src; focus := t; ctx := up |} ::
  match up with
  | [] => []
  | f :: up' => ancestors_from src (plug f t) up'
  end.

Definition self_and_ancestors (n : Node) : list Node :=
  ancestors_from (source n) (focus n) (ctx n).

(** The chain [n.prev_sibling, n.prev_sibling.prev_sibling, ...]. *)
Fixpoint prev_from (src : string) (i : Info) (up : list Frame)
    (left : list Syntax) (right : list Syntax) : list Node :=
  match left with
  | [] => []
  | p :: l =>
      {| source := src; focus := p;
         ctx := {| f_info := i; f_left := l; f_right := right |} :: up |}
      :: prev_from src i up l (p :: right)
  end.

Definition prev_siblings (n : Node) : list Node :=
  match ctx n with
  | [] => []
  | f :: up => prev_from (source n) (f_info f) up (f_left f) (focus n :: f_right f)
  end.

(** The root of the tree a node belongs to. *)
Fixpoint zip_up (t : Syntax) (up : list Frame) : Syntax :=
  match up with
  | [] => t
  | f :: up' => zip_up (plug f t) up'
  end.

Definition root_of (n : Node) : Syntax := zip_up (focus n) (ctx n).

Definition root_node (src : string) (t : Syntax) : Node :=
  {| source := src; focus := t; ctx := [] |}.

(** Position ordering: points compare lexicographically. *)
Definition point_leb (p q : Point) : bool :=
  Nat.ltb (fst p) (fst q) || (Nat.eqb (fst p) (fst q) && Nat.leb (snd p) (snd q)).

(** A tree is well positioned when, at every node, the children lie inside
    the node's extent, in order and without overlap:
    start <= start(c1) <= end(c1) <= start(c2) <= ... <= end. *)
Fixpoint well_positioned (t : Syntax) : bool :=
  let 'Syn i cs := t in
  (fix chain (lo : Point) (l : list Syntax) : bool :=
     match l with
     | [] => point_leb lo (end_point i)
     | c :: l' =>
         point_leb lo (start_point (info c)) && well_positioned c &&
         chain (end_point (info c)) l'
     end) (start_point i) cs.

Definition valid_node (n : Node) : bool := well_positioned (root_of n).

Definition ple (p q : Point) : Prop := point_leb p q = true.

(** The chain condition of [well_positioned], as a function of its own. *)
Fixpoint chain_ok (hi lo : Point) (l : list Syntax) : bool :=
  match l with
  | [] => point_leb lo hi
  | c :: l' =>
      point_leb lo (start_point (info c)) && well_positioned c &&
      chain_ok hi (end_point (info c)) l'
  end.

(** [node.start_point[0]] and [node.end_point[0]] *)
Definition start_row (n : Node) : nat := fst (start_point (node_info n)).
Definition end_row (n : Node) : nat := fst (end_point (node_info n)).

End TS.

(* ===================================================================== *)
(** ** The Dart extractor *)
(* ===================================================================== *)

Module Dart.
Import TS.

(** *** Query patterns ([DART_QUERIES]) *)

Definition functions_pattern : string := "
        (function_signature
            name: (identifier) @name
            (formal_parameter_list)? @params
        ) @function_node

        (getter_signature
            name: (identifier) @name
        ) @function_node

        (setter_signature
            name: (identifier) @name
            (formal_parameter_list)? @params
        ) @function_node

        (constructor_signature
            name: (identifier) @name
            (formal_parameter_list)? @params
        ) @function_node
    ".

Definition classes_pattern : string := "
        (class_definition
            name: (identifier) @name
        ) @class

        (mixin_declaration
            (identifier) @name
        ) @class

        (enum_declaration
            name: (identifier) @name
        ) @class

        (extension_declaration
            name: (identifier)? @name
        ) @class
    ".

Definition imports_pattern : string := "
        (import_or_export
            (library_import
                (import_specification
                    (configurable_uri
                        (uri
                            (string_literal) @path
                        )
                    )
                )
            )
        )

        (import_or_export
            (library_export
                (configurable_uri
                    (uri
                        (string_literal) @path
                    )
                )
            )
        )

        (part_directive
            (uri (string_literal) @path)
        )

        (part_of_directive
            (uri (string_literal) @path)
        )
    ".

Definition comments_pattern : string := "
        (comment) @comment
    ".

Definition DART_QUERIES : list (string * option string) :=
  [ ("functions", Some functions_pattern);
    ("classes", Some classes_pattern);
    ("imports", Some imports_pattern);
    ("calls", None);
    ("variables", None);
    ("comments", Some comments_pattern) ].

(** *** The external collaborators

    A [Node] object is always truthy, so the source's tests [if nm:],
    [if idn:], [if fn:], [while cur] and [if not name_node] only ask whether
    the value is [None].

    [compile_query] is [Query(language, pattern)], [None] standing for a
    [QueryError]; [parse_bytes] is [parser.parse(bytes)];
    [query_captures] is [QueryCursor(query).captures(node)], a dictionary
    from capture label to matched nodes, kept in insertion order. *)
Record Engine := {
  Query : Type;
  compile_query : string -> option Query;
  parse_bytes : string -> Syntax;
  query_captures : Query -> Node -> list (string * list Node);
}.

(** The file system: [read_text] is
    [Path(p).read_text(encoding="utf-8", errors="ignore")] and
    [resolve] is [str(p.resolve())]; [None] stands for a raised exception. *)
Record FileSystem := {
  read_text : string -> option string;
  resolve : string -> option string;
}.

(** [d.get(k)] on an insertion-ordered dictionary. *)
Fixpoint dict_get {V : Type} (k : string) (d : list (string * V)) : option V :=
  match d with
  | [] => None
  | (k', v) :: d' => if String.eqb k' k then Some v else dict_get k d'
  end.

(** *** [DartTreeSitterParser] *)

Record DartTreeSitterParser := {
  engine : Engine;
  language_name : string;
  queries : list (string * option (Query engine));
}.

(** [__init__]: every pattern is compiled once; an absent pattern and a
    pattern that fails to compile both leave [None] in [queries]. *)
Definition __init__ (e : Engine) : DartTreeSitterParser :=
  {| engine := e;
     language_name := "dart";
     queries :=
       map (fun '(name, query_str) =>
              (name,
               if Py.truthy query_str
               then match query_str with
                    | Some s => compile_query e s
                    | None => None
                    end
               else None))
           DART_QUERIES |}.

Definition _text (node : Node) : string := text node.

(** *** [_captures] *)

(** Stable sort on the start byte ([list.sort(key=...)] is stable). *)
Fixpoint insert_by_start (x : Node * string) (l : list (Node * string))
    : list (Node * string) :=
  match l with
  | [] => [x]
  | y :: l' =>
      if Nat.leb (start_byte (node_info (fst x))) (start_byte (node_info (fst y)))
      then x :: l
      else y :: insert_by_start x l'
  end.

Definition sort_by_start (l : list (Node * string)) : list (Node * string) :=
  fold_right insert_by_start [] l.

Definition _captures (self : DartTreeSitterParser) (query_name : string)
    (node : Node) : list (Node * string) :=
  match dict_get query_name (queries self) with
  | Some (Some query) =>
      let captures := query_captures (engine self) query node in
      let results :=
        flat_map (fun '(capture_name, nodes) =>
                    map (fun captured_node => (captured_node, capture_name)) nodes)
                 captures in
      sort_by_start results
  | _ => []
  end.

(** *** [_calc_complexity] *)

Definition complexity_nodes : list string :=
  [ "if_statement"; "for_statement"; "while_statement"; "do_statement";
    "switch_statement"; "case_clause"; "default_clause";
    "conditional_expression";
    "logical_or_expression"; "logical_and_expression"; "binary_expression";
    "try_statement"; "catch_clause" ].

(** The inner [walk] with its [nonlocal count] threaded through. *)
Fixpoint walk (n : Syntax) (count : nat) : nat :=
  let 'Syn i cs := n in
  let count := if Py.str_in (type i) complexity_nodes then count + 1 else count in
  fold_left (fun count c => walk c count) cs count.

Definition _calc_complexity (node : Node) : nat := walk (focus node) 1.

(** *** [_leading_line_comment] *)

Definition newline : string := String "010"%char EmptyString.

(** The [while] loop over [prev = prev.prev_sibling], as a recursion on the
    chain of previous siblings. *)
Fixpoint leading_walk (chain : list Node) : option string :=
  match chain with
  | [] => None
  | prev :: rest =>
      if Py.str_in (node_type prev) [newline; " "; "metadata"]
         || Py.contains "comment" (node_type prev)
      then if Py.contains "comment" (node_type prev)
           then Some (Py.strip (_text prev))
           else leading_walk rest
      else None
  end.

Definition _leading_line_comment (node : Node) : option string :=
  leading_walk (prev_siblings node).

(** *** [_extract_function_name] *)

(** The [for child in node.children] loop that collects the leading run of
    identifier and [.] tokens and stops at the first other child. *)
Fixpoint constructor_parts (cs : list Node) : list string :=
  match cs with
  | [] => []
  | child :: rest =>
      if String.eqb (node_type child) "identifier"
      then _text child :: constructor_parts rest
      else if String.eqb (node_type child) "."
      then "." :: constructor_parts rest
      else []
  end.

Definition _extract_function_name (node : Node) : option string :=
  let by_field :=
    if Py.str_in (node_type node)
         ["function_signature"; "getter_signature"; "setter_signature"]
    then match child_by_field_name node "name" with
         | Some nm => Some (_text nm)
         | None => None
         end
    else None in
  match by_field with
  | Some s => Some s
  | None =>
      if String.eqb (node_type node) "constructor_signature"
      then match constructor_parts (children node) with
           | [] => None
           | parts => Some (Py.join "" parts)
           end
      else None
  end.

(** *** Entity records *)

Record FunctionEntity := {
  fn_name : string;
  fn_line_number : nat;
  fn_end_line : nat;
  fn_args : list string;
  fn_source : string;
  fn_source_code : string;
  fn_docstring : option string;
  fn_cyclomatic_complexity : nat;
  fn_context : option string;
  fn_context_type : option string;
  fn_class_context : option string;
  fn_decorators : list string;
  fn_lang : string;
  fn_is_dependency : bool;
}.

Record ClassEntity := {
  cls_name : string;
  cls_line_number : nat;
  cls_end_line : nat;
  cls_bases : list string;
  cls_source : string;
  cls_docstring : option string;
  cls_context : option string;
  cls_decorators : list string;
  cls_lang : string;
  cls_is_dependency : bool;
}.

Record ImportEntity := {
  imp_name : string;
  imp_full_import_name : string;
  imp_line_number : nat;
  imp_alias : option string;
  imp_lang : string;
  imp_is_dependency : bool;
}.

Record CallEntity := {
  call_name : string;
  call_full_name : string;
  call_line_number : nat;
  call_args : list string;
  call_inferred_obj_type : option string;
  call_context : option string;
  call_class_context : option string;
  call_lang : string;
  call_is_dependency : bool;
}.

Record VariableEntity := {
  var_name : string;
  var_line_number : nat;
  var_value : option string;
  var_type : option string;
  var_context : option string;
  var_class_context : option string;
  var_lang : string;
  var_is_dependency : bool;
}.

Record FileRecord := {
  file_path : string;
  functions : list FunctionEntity;
  classes : list ClassEntity;
  variables : list VariableEntity;
  imports : list ImportEntity;
  function_calls : list CallEntity;
  is_dependency : bool;
  lang : string;
}.

(** *** [_find_functions] *)

Definition signature_types : list string :=
  [ "function_signature"; "getter_signature"; "setter_signature";
    "constructor_signature" ].

(** [find_signature]: the nearest node of a signature type on the chain
    [node, node.parent, ...]. *)
Definition find_signature (node : Node) : option Node :=
  List.find (fun cur => Py.str_in (node_type cur) signature_types)
            (self_and_ancestors node).

Definition node_for_params (pnode : Node) : option Node := find_signature pnode.

(** One accumulator of the [buckets] dictionary.  An entry is only ever
    created with its signature, so the source's re-assignment
    [if entry.get("signature") is None] never fires. *)
Record Bucket := {
  b_signature : Node;
  b_name : option string;
  b_params : option Node;
}.

Definition Key : Type := nat * nat.

Definition key_eqb (a b : Key) : bool :=
  Nat.eqb (fst a) (fst b) && Nat.eqb (snd a) (snd b).

Definition key_of (sig : Node) : Key :=
  (start_byte (node_info sig), end_byte (node_info sig)).

(** [buckets.setdefault(key, entry)] on the insertion-ordered dictionary. *)
Fixpoint setdefault (key : Key) (entry : Bucket) (buckets : list (Key * Bucket))
    : list (Key * Bucket) :=
  match buckets with
  | [] => [(key, entry)]
  | (k, b) :: rest =>
      if key_eqb k key then buckets else (k, b) :: setdefault key entry rest
  end.

(** In-place assignment to a field of the entry stored under [key]. *)
Fixpoint update (key : Key) (f : Bucket -> Bucket) (buckets : list (Key * Bucket))
    : list (Key * Bucket) :=
  match buckets with
  | [] => []
  | (k, b) :: rest =>
      if key_eqb k key then (k, f b) :: rest else (k, b) :: update key f rest
  end.

Definition bucket (sig : Node) (buckets : list (Key * Bucket))
    : list (Key * Bucket) :=
  setdefault (key_of sig)
             {| b_signature := sig; b_name := None; b_params := None |} buckets.

Definition set_name (s : string) (b : Bucket) : Bucket :=
  {| b_signature := b_signature b; b_name := Some s; b_params := b_params b |}.

Definition set_params (p : Node) (b : Bucket) : Bucket :=
  {| b_signature := b_signature b; b_name := b_name b; b_params := Some p |}.

(** The body of the first [for node, cap in captures] loop. *)
Definition collect_step (buckets : list (Key * Bucket)) (c : Node * string)
    : list (Key * Bucket) :=
  let '(node, cap) := c in
  if String.eqb cap "function_node" then
    match find_signature node with
    | Some sig => bucket sig buckets
    | None => buckets
    end
  else if String.eqb cap "name" then
    match find_signature node with
    | Some sig => update (key_of sig) (set_name (_text node)) (bucket sig buckets)
    | None => buckets
    end
  else if String.eqb cap "params" then
    match node_for_params node with
    | Some fn => update (key_of fn) (set_params node) (bucket fn buckets)
    | None => buckets
    end
  else buckets.

Definition collect_buckets (captures : list (Node * string)) : list (Key * Bucket) :=
  fold_left collect_step captures [].

(** Name resolution of one accumulator; [None] is the [continue]. *)
Definition resolve_name (info : Bucket) : option string :=
  let fn_node := b_signature info in
  let name := b_name info in
  let derived_name := _extract_function_name fn_node in
  let name :=
    if negb (Py.truthy name) then derived_name
    else if String.eqb (node_type fn_node) "constructor_signature"
            && Py.truthy derived_name
    then derived_name
    else name in
  if negb (Py.truthy name) then None else name.

(** Parameter names (best effort). *)
Definition param_name (ch : Node) : list string :=
  match child_by_field_name ch "name" with
  | Some idn => [_text idn]
  | None => []
  end.

Definition extract_params (p : option Node) : list string :=
  match p with
  | None => []
  | Some p =>
      flat_map
        (fun child =>
           if String.eqb (node_type child) "formal_parameter_list" then
             flat_map
               (fun ch =>
                  if String.eqb (node_type ch) "normal_formal_parameter"
                  then param_name ch
                  else if String.eqb (node_type ch) "simple_formal_parameter"
                  then param_name ch
                  else [])
               (children child)
           else if String.eqb (node_type child) "simple_formal_parameter"
           then param_name child
           else [])
        (children p)
  end.

Definition container_types : list string :=
  [ "method_signature"; "setter_signature"; "getter_signature";
    "constructor_signature"; "declaration" ].

(** The parent when it is one of the wrapper kinds; [container is not
    fn_node] holds exactly when this is [Some]. *)
Definition wrapper_of (fn_node : Node) : option Node :=
  match parent fn_node with
  | Some p => if Py.str_in (node_type p) container_types then Some p else None
  | None => None
  end.

Definition container_of (fn_node : Node) : Node :=
  match wrapper_of fn_node with
  | Some p => p
  | None => fn_node
  end.

Definition as_body (candidate : option Node) : option Node :=
  match candidate with
  | Some c => if String.eqb (node_type c) "function_body" then Some c else None
  | None => None
  end.

(** [for candidate in (container.next_named_sibling,
    fn_node.next_named_sibling)]: the first one that is a function body. *)
Definition body_of (fn_node : Node) : option Node :=
  match as_body (next_named_sibling (container_of fn_node)) with
  | Some b => Some b
  | None => as_body (next_named_sibling fn_node)
  end.

Definition end_node_of (fn_node : Node) : Node :=
  match body_of fn_node with
  | Some b => b
  | None => container_of fn_node
  end.

Definition doc_of (fn_node : Node) : option string :=
  match _leading_line_comment fn_node with
  | Some d => Some d
  | None =>
      match wrapper_of fn_node with
      | Some container => _leading_line_comment container
      | None => None
      end
  end.

Definition nonblank (segment : string) : bool :=
  negb (String.eqb (Py.strip segment) "").

Definition source_text_of (fn_node : Node) : string :=
  let source_segments :=
    _text fn_node ::
    match body_of fn_node with
    | Some body_node => [_text body_node]
    | None => []
    end in
  Py.join newline (List.filter nonblank source_segments).

(** The body of the second loop, [for info in buckets.values()]. *)
Definition emit_function (language_name : string) (info : Bucket)
    : option FunctionEntity :=
  let fn_node := b_signature info in
  match resolve_name info with
  | None => None
  | Some name =>
      let params := extract_params (b_params info) in
      let container := container_of fn_node in
      let end_node := end_node_of fn_node in
      let doc := doc_of fn_node in
      let source_text := source_text_of fn_node in
      Some {| fn_name := name;
              fn_line_number := fst (start_point (node_info container)) + 1;
              fn_end_line := fst (end_point (node_info end_node)) + 1;
              fn_args := params;
              fn_source := source_text;
              fn_source_code := source_text;
              fn_docstring := doc;
              fn_cyclomatic_complexity := _calc_complexity end_node;
              fn_context := None;
              fn_context_type := None;
              fn_class_context := None;
              fn_decorators := [];
              fn_lang := language_name;
              fn_is_dependency := false |}
  end.

Definition emit_functions (language_name : string) (buckets : list (Key * Bucket))
    : list FunctionEntity :=
  omap (fun kv => emit_function language_name (snd kv)) buckets.

Definition _find_functions (self : DartTreeSitterParser) (root : Node)
    : list FunctionEntity :=
  let captures := _captures self "functions" root in
  match captures with
  | [] => []
  | _ => emit_functions (language_name self) (collect_buckets captures)
  end.

(** *** [_find_classes] *)

(** [for child in node.children: if child.type == "identifier": ... break] *)
Definition first_identifier (node : Node) : option Node :=
  List.find (fun child => String.eqb (node_type child) "identifier") (children node).

Definition class_name_text (node : Node) : string :=
  let name_node := child_by_field_name node "name" in
  let name_node :=
    match name_node with
    | Some n => Some n
    | None => first_identifier node
    end in
  match name_node with
  | None => "extension"
  | Some n => _text n
  end.

Definition class_entity (language_name : string) (node : Node) : ClassEntity :=
  {| cls_name := class_name_text node;
     cls_line_number := fst (start_point (node_info node)) + 1;
     cls_end_line := fst (end_point (node_info node)) + 1;
     cls_bases := [];
     cls_source := _text node;
     cls_docstring := _leading_line_comment node;
     cls_context := None;
     cls_decorators := [];
     cls_lang := language_name;
     cls_is_dependency := false |}.

Definition _find_classes (self : DartTreeSitterParser) (root : Node)
    : list ClassEntity :=
  flat_map (fun '(node, cap) =>
              if String.eqb cap "class"
              then [class_entity (language_name self) node]
              else [])
           (_captures self "classes" root).

(** *** [_find_imports] *)

Definition quote_chars : list ascii := ["034"%char; "'"%char].

Definition import_entity (language_name : string) (node : Node) : ImportEntity :=
  let parent := match parent node with Some p => p | None => node end in
  let raw := Py.strip_chars quote_chars (_text node) in
  {| imp_name := raw;
     imp_full_import_name := raw;
     imp_line_number := fst (start_point (node_info parent)) + 1;
     imp_alias := None;
     imp_lang := language_name;
     imp_is_dependency := false |}.

Definition _find_imports (self : DartTreeSitterParser) (root : Node)
    : list ImportEntity :=
  flat_map (fun '(node, cap) =>
              if negb (String.eqb cap "path")
              then []
              else [import_entity (language_name self) node])
           (_captures self "imports" root).

(** *** [_find_calls] *)

Definition call_entity (language_name : string) (node : Node) : CallEntity :=
  {| call_name := _text node;
     call_full_name :=
       match parent node with Some p => _text p | None => _text node end;
     call_line_number := fst (start_point (node_info node)) + 1;
     call_args := [];
     call_inferred_obj_type := None;
     call_context := None;
     call_class_context := None;
     call_lang := language_name;
     call_is_dependency := false |}.

Definition _find_calls (self : DartTreeSitterParser) (root : Node)
    : list CallEntity :=
  flat_map (fun '(node, cap) =>
              if String.eqb cap "name"
              then [call_entity (language_name self) node]
              else [])
           (_captures self "calls" root).

(** *** [_find_variables] *)

Definition declaration_types : list string :=
  [ "initialized_variable_declaration"; "variable_declaration";
    "top_level_variable_declaration" ].

(** [while cur and cur.type not in (...): cur = cur.parent] *)
Definition find_declaration (node : Node) : option Node :=
  List.find (fun cur => Py.str_in (node_type cur) declaration_types)
            (self_and_ancestors node).

Record VarBucket := {
  vb_node : Node;
  vb_name : option string;
  vb_value : option string;
}.

(** The accumulators are keyed by [id(n)], the identity of the Python
    object.  Every capture, and every [cur.parent], is a fresh object, so
    each capture that reaches a declaration opens an accumulator of its
    own. *)
Definition var_step (buckets : list VarBucket) (c : Node * string)
    : list VarBucket :=
  let '(node, cap) := c in
  if String.eqb cap "name" then
    match find_declaration node with
    | Some cur =>
        (buckets ++ [{| vb_node := cur; vb_name := Some (_text node);
                        vb_value := None |}])%list
    | None => buckets
    end
  else if String.eqb cap "value" then
    match find_declaration node with
    | Some cur =>
        (buckets ++ [{| vb_node := cur; vb_name := None;
                        vb_value := Some (_text node) |}])%list
    | None => buckets
    end
  else buckets.

Definition emit_variable (language_name : string) (info : VarBucket)
    : option VariableEntity :=
  if negb (Py.truthy (vb_name info)) then None
  else match vb_name info with
       | None => None
       | Some nm =>
           Some {| var_name := nm;
                   var_line_number :=
                     fst (start_point (node_info (vb_node info))) + 1;
                   var_value := vb_value info;
                   var_type := None;
                   var_context := None;
                   var_class_context := None;
                   var_lang := language_name;
                   var_is_dependency := false |}
       end.

Definition _find_variables (self : DartTreeSitterParser) (root : Node)
    : list VariableEntity :=
  let captures := _captures self "variables" root in
  match captures with
  | [] => []
  | _ => omap (emit_variable (language_name self)) (fold_left var_step captures [])
  end.

(** *** [parse] *)

Definition parse (self : DartTreeSitterParser) (fs : FileSystem)
    (file_path : string) (is_dependency : bool) : FileRecord :=
  match read_text fs file_path with
  | None =>
      {| file_path := file_path;
         functions := [];
         classes := [];
         variables := [];
         imports := [];
         function_calls := [];
         is_dependency := is_dependency;
         lang := language_name self |}
  | Some source_code =>
      let tree := parse_bytes (engine self) source_code in
      let root := root_node source_code tree in
      {| file_path := file_path;
         functions := _find_functions self root;
         classes := _find_classes self root;
         variables := _find_variables self root;
         imports := _find_imports self root;
         function_calls := _find_calls self root;
         is_dependency := is_dependency;
         lang := language_name self |}
  end.

(** *** [pre_scan_dart] *)

Definition prescan_pattern : string := "
        (class_definition
            name: (identifier) @name
        )

        (mixin_declaration
            (identifier) @name
        )

        (enum_declaration
            name: (identifier) @name
        )

        (extension_declaration
            name: (identifier)? @name
        )

        (function_signature
            name: (identifier) @name
        )

        (getter_signature
            name: (identifier) @name
        )

        (setter_signature
            name: (identifier) @name
        )

        (constructor_signature
            name: (identifier) @name
        )
    ".

(** The index is mutated in place inside a [try] block, so an exception
    leaves behind whatever was written before it: both outcomes carry the
    index. *)
Inductive Outcome :=
| Done (imports_map : gmap string (list string))
| Raised (imports_map : gmap string (list string)).

Definition index_of (o : Outcome) : gmap string (list string) :=
  match o with Done m => m | Raised m => m end.

(** The body of [for node in nodes]. *)
Definition add_symbol (fs : FileSystem) (file_path : string)
    (imports_map : gmap string (list string)) (node : Node) : Outcome :=
  let sym := text node in
  let imports_map :=
    match imports_map !! sym with
    | Some _ => imports_map
    | None => <[sym := []]> imports_map
    end in
  match resolve fs file_path with
  | None => Raised imports_map
  | Some fullpath =>
      let paths := default [] (imports_map !! sym) in
      if negb (Py.str_in fullpath paths)
      then Done (<[sym := (paths ++ [fullpath])%list]> imports_map)
      else Done imports_map
  end.

Fixpoint scan_nodes (fs : FileSystem) (file_path : string) (nodes : list Node)
    (imports_map : gmap string (list string)) : Outcome :=
  match nodes with
  | [] => Done imports_map
  | node :: rest =>
      match add_symbol fs file_path imports_map node with
      | Done m => scan_nodes fs file_path rest m
      | Raised m => Raised m
      end
  end.

Fixpoint scan_captures (fs : FileSystem) (file_path : string)
    (captures : list (string * list Node))
    (imports_map : gmap string (list string)) : Outcome :=
  match captures with
  | [] => Done imports_map
  | (cap_name, nodes) :: rest =>
      if negb (String.eqb cap_name "name")
      then scan_captures fs file_path rest imports_map
      else match scan_nodes fs file_path nodes imports_map with
           | Done m => scan_captures fs file_path rest m
           | Raised m => Raised m
           end
  end.

(** One iteration of [for file_path in files], [try]/[except] included. *)
Definition scan_file (e : Engine) (fs : FileSystem) (query : Query e)
    (imports_map : gmap string (list string)) (file_path : string)
    : gmap string (list string) :=
  match read_text fs file_path with
  | None => imports_map
  | Some text =>
      let tree := parse_bytes e text in
      let captures := query_captures e query (root_node text tree) in
      index_of (scan_captures fs file_path captures imports_map)
  end.

Definition pre_scan_dart (e : Engine) (fs : FileSystem) (files : list string)
    : gmap string (list string) :=
  match compile_query e prescan_pattern with
  | None => ∅
  | Some query => fold_left (scan_file e fs query) files ∅
  end.

(** The nodes the functions and classes queries hand over for one file
    all sit in well-positioned trees. *)
Definition valid_captures (self : DartTreeSitterParser) (root : Node) : bool :=
  forallb (fun c => valid_node (fst c))
          (_captures self "functions" root ++ _captures self "classes" root).

End Dart.

(* ===================================================================== *)
(** ** The specification's wording, for comparison with the code *)
(* ===================================================================== *)

Module Spec.
Import TS Dart.

(** Every node of a subtree, the root first. *)
Fixpoint subtree_nodes (t : Syntax) : list Syntax :=
  let 'Syn _ cs := t in t :: flat_map subtree_nodes cs.

Definition is_decision_point (t : Syntax) : bool :=
  Py.str_in (type (info t)) complexity_nodes.

(** The number of decision-point nodes found by visiting every node of a
    subtree. *)
Definition decision_points (t : Syntax) : nat :=
  length (List.filter is_decision_point (subtree_nodes t)).

(** The census over the declaration's full span: the signature, plus the
    body when a body is present. *)
Definition full_span_decision_points (fn_node : Node) : nat :=
  decision_points (focus fn_node) +
  match body_of fn_node with
  | Some body => decision_points (focus body)
  | None => 0
  end.

(** Every path list of an index is free of duplicates. *)
Definition all_nodup (m : gmap string (list string)) : Prop :=
  forall sym paths, m !! sym = Some paths -> NoDup paths.

(** [m'] has every symbol of [m], with at least the paths [m] lists. *)
Definition extends (m m' : gmap string (list string)) : Prop :=
  forall sym l, m !! sym = Some l ->
    exists l', m' !! sym = Some l' /\ forall x, In x l -> In x l'.

(** The nodes under the label [name], in the order the pre-scan visits
    them. *)
Definition name_nodes (captures : list (string * list Node)) : list Node :=
  flat_map (fun '(cap_name, nodes) =>
              if String.eqb cap_name "name" then nodes else [])
           captures.

(** The nodes the pre-scan gets to for one file: all of them, or only the
    first when resolving the path raises. *)
Definition visited (fs : FileSystem) (file_path : string) (nodes : list Node)
    : list Node :=
  match resolve fs file_path with
  | Some _ => nodes
  | None => firstn 1 nodes
  end.

Definition file_nodes (e : Engine) (fs : FileSystem) (query : Query e)
    (file_path : string) : list Node :=
  match read_text fs file_path with
  | None => []
  | Some text =>
      visited fs file_path
        (name_nodes (query_captures e query (root_node text (parse_bytes e text))))
  end.

(** The index already records what visiting [node] in [file_path] would
    write. *)
Definition known (fs : FileSystem) (file_path : string)
    (m : gmap string (list string)) (node : Node) : Prop :=
  match resolve fs file_path with
  | Some fullpath => exists l, m !! text node = Some l /\ In fullpath l
  | None => is_Some (m !! text node)
  end.

End Spec.

(* ===================================================================== *)
(** ** Sample files *)
(* ===================================================================== *)

(** Concrete syntax trees, written out with their byte offsets and points,
    and a sample engine and file system that serve them. *)
Module Samples.
Import TS Dart.

Definition mk (ty : string) (named : bool) (fld : option string)
    (sb eb : nat) (sp ep : Point) : Info :=
  {| type := ty; is_named := named; field := fld;
     start_byte := sb; end_byte := eb; start_point := sp; end_point := ep |}.

Definition unlines (ls : list string) : string :=
  String.concat "" (map (fun l => l +:+ newline) ls).

(** The node reached from [n] by following child indices. *)
Fixpoint descend (n : Node) (path : list nat) : option Node :=
  match path with
  | [] => Some n
  | i :: path' =>
      match nth_error (children n) i with
      | Some c => descend c path'
      | None => None
      end
  end.

Definition pick (root : Node) (paths : list (list nat)) : list Node :=
  omap (descend root) paths.

(** A named constructor, [Type.named(int x)], whose parameter is a typed
    (normal) formal parameter directly under the parameter list. *)
Definition ctor_src : string :=
  unlines [ "class Type {";
            "  Type.named(int x);";
            "}" ].

Definition ctor_tree : Syntax :=
  Syn (mk "program" true None 0 36 (0, 0) (3, 0))
    [ Syn (mk "class_definition" true None 0 35 (0, 0) (2, 1))
        [ Syn (mk "class" false None 0 5 (0, 0) (0, 5)) [];
          Syn (mk "identifier" true (Some "name") 6 10 (0, 6) (0, 10)) [];
          Syn (mk "class_body" true (Some "body") 11 35 (0, 11) (2, 1))
            [ Syn (mk "{" false None 11 12 (0, 11) (0, 12)) [];
              Syn (mk "declaration" true None 15 32 (1, 2) (1, 19))
                [ Syn (mk "constructor_signature" true None 15 32 (1, 2) (1, 19))
                    [ Syn (mk "identifier" true (Some "name") 15 19 (1, 2) (1, 6)) [];
                      Syn (mk "." false None 19 20 (1, 6) (1, 7)) [];
                      Syn (mk "identifier" true (Some "name") 20 25 (1, 7) (1, 12)) [];
                      Syn (mk "formal_parameter_list" true (Some "parameters") 25 32 (1, 12) (1, 19))
                        [ Syn (mk "(" false None 25 26 (1, 12) (1, 13)) [];
                          Syn (mk "normal_formal_parameter" true None 26 31 (1, 13) (1, 18))
                            [ Syn (mk "type_identifier" true None 26 29 (1, 13) (1, 16)) [];
                              Syn (mk "identifier" true (Some "name") 30 31 (1, 17) (1, 18)) [] ];
                          Syn (mk ")" false None 31 32 (1, 18) (1, 19)) [] ] ] ];
              Syn (mk ";" false None 32 33 (1, 19) (1, 20)) [];
              Syn (mk "}" false None 34 35 (2, 0) (2, 1)) [] ] ] ].

(** A function whose signature holds a conditional expression (the default
    value of an optional parameter) and whose body has no decision point. *)
Definition dflt_src : string :=
  unlines [ "int f([int a = true ? 1 : 2]) {";
            "  return a;";
            "}" ].

Definition dflt_tree : Syntax :=
  Syn (mk "program" true None 0 46 (0, 0) (3, 0))
    [ Syn (mk "function_signature" true None 0 29 (0, 0) (0, 29))
        [ Syn (mk "type_identifier" true None 0 3 (0, 0) (0, 3)) [];
          Syn (mk "identifier" true (Some "name") 4 5 (0, 4) (0, 5)) [];
          Syn (mk "formal_parameter_list" true None 5 29 (0, 5) (0, 29))
            [ Syn (mk "(" false None 5 6 (0, 5) (0, 6)) [];
              Syn (mk "optional_formal_parameters" true None 6 28 (0, 6) (0, 28))
                [ Syn (mk "[" false None 6 7 (0, 6) (0, 7)) [];
                  Syn (mk "formal_parameter" true None 7 12 (0, 7) (0, 12))
                    [ Syn (mk "type_identifier" true None 7 10 (0, 7) (0, 10)) [];
                      Syn (mk "identifier" true (Some "name") 11 12 (0, 11) (0, 12)) [] ];
                  Syn (mk "=" false None 13 14 (0, 13) (0, 14)) [];
                  Syn (mk "conditional_expression" true None 15 27 (0, 15) (0, 27))
                    [ Syn (mk "true" true None 15 19 (0, 15) (0, 19)) [];
                      Syn (mk "?" false None 20 21 (0, 20) (0, 21)) [];
                      Syn (mk "decimal_integer_literal" true None 22 23 (0, 22) (0, 23)) [];
                      Syn (mk ":" false None 24 25 (0, 24) (0, 25)) [];
                      Syn (mk "decimal_integer_literal" true None 26 27 (0, 26) (0, 27)) [] ];
                  Syn (mk "]" false None 27 28 (0, 27) (0, 28)) [] ];
              Syn (mk ")" false None 28 29 (0, 28) (0, 29)) [] ] ];
      Syn (mk "function_body" true None 30 45 (0, 30) (2, 1))
        [ Syn (mk "block" true None 30 45 (0, 30) (2, 1))
            [ Syn (mk "{" false None 30 31 (0, 30) (0, 31)) [];
              Syn (mk "return_statement" true None 34 43 (1, 2) (1, 11))
                [ Syn (mk "return" false None 34 40 (1, 2) (1, 8)) [];
                  Syn (mk "identifier" true None 41 42 (1, 9) (1, 10)) [];
                  Syn (mk ";" false None 42 43 (1, 10) (1, 11)) [] ];
              Syn (mk "}" false None 44 45 (2, 0) (2, 1)) [] ] ] ].

(** An import directive written over two lines. *)
Definition imp_src : string :=
  unlines [ "import";
            "  'package:pkg/lib.dart';" ].

Definition imp_tree : Syntax :=
  Syn (mk "program" true None 0 33 (0, 0) (2, 0))
    [ Syn (mk "import_or_export" true None 0 32 (0, 0) (1, 25))
        [ Syn (mk "library_import" true None 0 32 (0, 0) (1, 25))
            [ Syn (mk "import_specification" true None 0 32 (0, 0) (1, 25))
                [ Syn (mk "import" false None 0 6 (0, 0) (0, 6)) [];
                  Syn (mk "configurable_uri" true None 9 31 (1, 2) (1, 24))
                    [ Syn (mk "uri" true None 9 31 (1, 2) (1, 24))
                        [ Syn (mk "string_literal" true None 9 31 (1, 2) (1, 24)) [] ] ];
                  Syn (mk ";" false None 31 32 (1, 24) (1, 25)) [] ] ] ] ].

(** A malformed function header (the engine supplies a zero-width, missing
    identifier) followed by a well-formed function. *)
Definition anon_src : string :=
  unlines [ "void (int a) {}";
            "int g() => 1;" ].

Definition anon_tree : Syntax :=
  Syn (mk "program" true None 0 30 (0, 0) (2, 0))
    [ Syn (mk "function_signature" true None 0 12 (0, 0) (0, 12))
        [ Syn (mk "void_type" true None 0 4 (0, 0) (0, 4)) [];
          Syn (mk "identifier" true (Some "name") 4 4 (0, 4) (0, 4)) [];
          Syn (mk "formal_parameter_list" true None 5 12 (0, 5) (0, 12))
            [ Syn (mk "(" false None 5 6 (0, 5) (0, 6)) [];
              Syn (mk "formal_parameter" true None 6 11 (0, 6) (0, 11))
                [ Syn (mk "type_identifier" true None 6 9 (0, 6) (0, 9)) [];
                  Syn (mk "identifier" true (Some "name") 10 11 (0, 10) (0, 11)) [] ];
              Syn (mk ")" false None 11 12 (0, 11) (0, 12)) [] ] ];
      Syn (mk "function_body" true None 13 15 (0, 13) (0, 15))
        [ Syn (mk "block" true None 13 15 (0, 13) (0, 15))
            [ Syn (mk "{" false None 13 14 (0, 13) (0, 14)) [];
              Syn (mk "}" false None 14 15 (0, 14) (0, 15)) [] ] ];
      Syn (mk "function_signature" true None 16 23 (1, 0) (1, 7))
        [ Syn (mk "type_identifier" true None 16 19 (1, 0) (1, 3)) [];
          Syn (mk "identifier" true (Some "name") 20 21 (1, 4) (1, 5)) [];
          Syn (mk "formal_parameter_list" true None 21 23 (1, 5) (1, 7))
            [ Syn (mk "(" false None 21 22 (1, 5) (1, 6)) [];
              Syn (mk ")" false None 22 23 (1, 6) (1, 7)) [] ] ];
      Syn (mk "function_body" true None 24 29 (1, 8) (1, 13))
        [ Syn (mk "=>" false None 24 26 (1, 8) (1, 10)) [];
          Syn (mk "decimal_integer_literal" true None 27 28 (1, 11) (1, 12)) [];
          Syn (mk ";" false None 28 29 (1, 12) (1, 13)) [] ] ].

(** An unnamed extension, a mixin and a class. *)
Definition types_src : string :=
  unlines [ "extension on String {";
            "}";
            "mixin M {";
            "}";
            "class Foo {";
            "}" ].

Definition types_tree : Syntax :=
  Syn (mk "program" true None 0 50 (0, 0) (6, 0))
    [ Syn (mk "extension_declaration" true None 0 23 (0, 0) (1, 1))
        [ Syn (mk "extension" false None 0 9 (0, 0) (0, 9)) [];
          Syn (mk "on" false None 10 12 (0, 10) (0, 12)) [];
          Syn (mk "type_identifier" true None 13 19 (0, 13) (0, 19)) [];
          Syn (mk "extension_body" true (Some "body") 20 23 (0, 20) (1, 1))
            [ Syn (mk "{" false None 20 21 (0, 20) (0, 21)) [];
              Syn (mk "}" false None 22 23 (1, 0) (1, 1)) [] ] ];
      Syn (mk "mixin_declaration" true None 24 35 (2, 0) (3, 1))
        [ Syn (mk "mixin" false None 24 29 (2, 0) (2, 5)) [];
          Syn (mk "identifier" true None 30 31 (2, 6) (2, 7)) [];
          Syn (mk "class_body" true None 32 35 (2, 8) (3, 1))
            [ Syn (mk "{" false None 32 33 (2, 8) (2, 9)) [];
              Syn (mk "}" false None 34 35 (3, 0) (3, 1)) [] ] ];
      Syn (mk "class_definition" true None 36 49 (4, 0) (5, 1))
        [ Syn (mk "class" false None 36 41 (4, 0) (4, 5)) [];
          Syn (mk "identifier" true (Some "name") 42 45 (4, 6) (4, 9)) [];
          Syn (mk "class_body" true (Some "body") 46 49 (4, 10) (5, 1))
            [ Syn (mk "{" false None 46 47 (4, 10) (4, 11)) [];
              Syn (mk "}" false None 48 49 (5, 0) (5, 1)) [] ] ] ].

(** A documented method: the comment precedes the method wrapper, not the
    signature inside it. *)
Definition meth_src : string :=
  unlines [ "class A {";
            "  /// Doc";
            "  void m() {}";
            "}" ].

Definition meth_tree : Syntax :=
  Syn (mk "program" true None 0 36 (0, 0) (4, 0))
    [ Syn (mk "class_definition" true None 0 35 (0, 0) (3, 1))
        [ Syn (mk "class" false None 0 5 (0, 0) (0, 5)) [];
          Syn (mk "identifier" true (Some "name") 6 7 (0, 6) (0, 7)) [];
          Syn (mk "class_body" true (Some "body") 8 35 (0, 8) (3, 1))
            [ Syn (mk "{" false None 8 9 (0, 8) (0, 9)) [];
              Syn (mk "comment" true None 12 19 (1, 2) (1, 9)) [];
              Syn (mk "method_signature" true None 22 30 (2, 2) (2, 10))
                [ Syn (mk "function_signature" true None 22 30 (2, 2) (2, 10))
                    [ Syn (mk "void_type" true None 22 26 (2, 2) (2, 6)) [];
                      Syn (mk "identifier" true (Some "name") 27 28 (2, 7) (2, 8)) [];
                      Syn (mk "formal_parameter_list" true None 28 30 (2, 8) (2, 10))
                        [ Syn (mk "(" false None 28 29 (2, 8) (2, 9)) [];
                          Syn (mk ")" false None 29 30 (2, 9) (2, 10)) [] ] ] ];
              Syn (mk "function_body" true None 31 33 (2, 11) (2, 13))
                [ Syn (mk "block" true None 31 33 (2, 11) (2, 13))
                    [ Syn (mk "{" false None 31 32 (2, 11) (2, 12)) [];
                      Syn (mk "}" false None 32 33 (2, 12) (2, 13)) [] ] ];
              Syn (mk "}" false None 34 35 (3, 0) (3, 1)) [] ] ] ].

(** A file that declares [Foo]. *)
Definition foo_src : string :=
  unlines [ "class Foo {";
            "}" ].

Definition foo_tree : Syntax :=
  Syn (mk "program" true None 0 14 (0, 0) (2, 0))
    [ Syn (mk "class_definition" true None 0 13 (0, 0) (1, 1))
        [ Syn (mk "class" false None 0 5 (0, 0) (0, 5)) [];
          Syn (mk "identifier" true (Some "name") 6 9 (0, 6) (0, 9)) [];
          Syn (mk "class_body" true (Some "body") 10 13 (0, 10) (1, 1))
            [ Syn (mk "{" false None 10 11 (0, 10) (0, 11)) [];
              Syn (mk "}" false None 12 13 (1, 0) (1, 1)) [] ] ] ].

(** A file that declares [Foo] twice, as a class and as a function. *)
Definition foo2_src : string :=
  unlines [ "class Foo {";
            "}";
            "void Foo() {}" ].

Definition foo2_tree : Syntax :=
  Syn (mk "program" true None 0 28 (0, 0) (3, 0))
    [ Syn (mk "class_definition" true None 0 13 (0, 0) (1, 1))
        [ Syn (mk "class" false None 0 5 (0, 0) (0, 5)) [];
          Syn (mk "identifier" true (Some "name") 6 9 (0, 6) (0, 9)) [];
          Syn (mk "class_body" true (Some "body") 10 13 (0, 10) (1, 1))
            [ Syn (mk "{" false None 10 11 (0, 10) (0, 11)) [];
              Syn (mk "}" false None 12 13 (1, 0) (1, 1)) [] ] ];
      Syn (mk "function_signature" true None 14 24 (2, 0) (2, 10))
        [ Syn (mk "void_type" true None 14 18 (2, 0) (2, 4)) [];
          Syn (mk "identifier" true (Some "name") 19 22 (2, 5) (2, 8)) [];
          Syn (mk "formal_parameter_list" true None 22 24 (2, 8) (2, 10))
            [ Syn (mk "(" false None 22 23 (2, 8) (2, 9)) [];
              Syn (mk ")" false None 23 24 (2, 9) (2, 10)) [] ] ];
      Syn (mk "function_body" true None 25 27 (2, 11) (2, 13))
        [ Syn (mk "block" true None 25 27 (2, 11) (2, 13))
            [ Syn (mk "{" false None 25 26 (2, 11) (2, 12)) [];
              Syn (mk "}" false None 26 27 (2, 12) (2, 13)) [] ] ] ].

(** What the query engine reports for one file: per pattern, the capture
    labels with the matched nodes (as child-index paths from the root). *)
Record Sample := {
  s_path : string;
  s_src : string;
  s_tree : Syntax;
  s_functions : list (string * list (list nat));
  s_classes : list (string * list (list nat));
  s_imports : list (string * list (list nat));
  s_prescan : list (string * list (list nat));
}.

Definition samples : list Sample :=
  [ {| s_path := "lib/ctor.dart"; s_src := ctor_src; s_tree := ctor_tree;
       s_functions := [ ("function_node", [[0; 2; 1; 0]]);
                        ("name", [[0; 2; 1; 0; 0]; [0; 2; 1; 0; 2]]);
                        ("params", [[0; 2; 1; 0; 3]]) ];
       s_classes := [ ("class", [[0]]); ("name", [[0; 1]]) ];
       s_imports := [];
       s_prescan := [ ("name", [[0; 1]; [0; 2; 1; 0; 0]; [0; 2; 1; 0; 2]]) ] |};
    {| s_path := "lib/dflt.dart"; s_src := dflt_src; s_tree := dflt_tree;
       s_functions := [ ("function_node", [[0]]); ("name", [[0; 1]]);
                        ("params", [[0; 2]]) ];
       s_classes := [];
       s_imports := [];
       s_prescan := [ ("name", [[0; 1]]) ] |};
    {| s_path := "lib/imp.dart"; s_src := imp_src; s_tree := imp_tree;
       s_functions := [];
       s_classes := [];
       s_imports := [ ("path", [[0; 0; 0; 1; 0; 0]]) ];
       s_prescan := [] |};
    {| s_path := "lib/anon.dart"; s_src := anon_src; s_tree := anon_tree;
       s_functions := [ ("function_node", [[0]; [2]]);
                        ("name", [[0; 1]; [2; 1]]);
                        ("params", [[0; 2]; [2; 2]]) ];
       s_classes := [];
       s_imports := [];
       s_prescan := [ ("name", [[0; 1]; [2; 1]]) ] |};
    {| s_path := "lib/types.dart"; s_src := types_src; s_tree := types_tree;
       s_functions := [];
       s_classes := [ ("class", [[0]; [1]; [2]]); ("name", [[1; 1]; [2; 1]]) ];
       s_imports := [];
       s_prescan := [ ("name", [[1; 1]; [2; 1]]) ] |};
    {| s_path := "lib/meth.dart"; s_src := meth_src; s_tree := meth_tree;
       s_functions := [ ("function_node", [[0; 2; 2; 0]]);
                        ("name", [[0; 2; 2; 0; 1]]);
                        ("params", [[0; 2; 2; 0; 2]]) ];
       s_classes := [ ("class", [[0]]); ("name", [[0; 1]]) ];
       s_imports := [];
       s_prescan := [ ("name", [[0; 1]; [0; 2; 2; 0; 1]]) ] |};
    {| s_path := "lib/foo.dart"; s_src := foo_src; s_tree := foo_tree;
       s_functions := [];
       s_classes := [ ("class", [[0]]); ("name", [[0; 1]]) ];
       s_imports := [];
       s_prescan := [ ("name", [[0; 1]]) ] |};
    {| s_path := "lib/foo2.dart"; s_src := foo2_src; s_tree := foo2_tree;
       s_functions := [ ("function_node", [[1]]); ("name", [[1; 1]]);
                        ("params", [[1; 2]]) ];
       s_classes := [ ("class", [[0]]); ("name", [[0; 1]]) ];
       s_imports := [];
       s_prescan := [ ("name", [[0; 1]; [1; 1]]) ] |} ].

Definition by_source (src : string) : option Sample :=
  List.find (fun s => String.eqb (s_src s) src) samples.

Definition by_path (p : string) : option Sample :=
  List.find (fun s => String.eqb (s_path s) p) samples.

Definition empty_program : Syntax :=
  Syn (mk "program" true None 0 0 (0, 0) (0, 0)) [].

Definition sample_captures (pattern : string) (root : Node)
    : list (string * list Node) :=
  match by_source (source root) with
  | None => []
  | Some s =>
      let table :=
        if String.eqb pattern functions_pattern then s_functions s
        else if String.eqb pattern classes_pattern then s_classes s
        else if String.eqb pattern imports_pattern then s_imports s
        else if String.eqb pattern prescan_pattern then s_prescan s
        else [] in
      map (fun '(label, paths) => (label, pick root paths)) table
  end.

Definition sample_engine : Engine :=
  {| Query := string;
     compile_query := Some;
     parse_bytes := fun src =>
       match by_source src with
       | Some s => s_tree s
       | None => empty_program
       end;
     query_captures := sample_captures |}.

(** The sample files exist under their paths, every other path is
    unreadable; paths resolve under [/repo]. *)
Definition sample_fs : FileSystem :=
  {| read_text := fun p => s_src <$> by_path p;
     resolve := fun p => Some ("/repo/" +:+ p) |}.

Definition sample_parser : DartTreeSitterParser := __init__ sample_engine.

Definition ctor_root : Node := root_node ctor_src ctor_tree.
Definition dflt_root : Node := root_node dflt_src dflt_tree.
Definition imp_root : Node := root_node imp_src imp_tree.
Definition anon_root : Node := root_node anon_src anon_tree.
Definition types_root : Node := root_node types_src types_tree.
Definition meth_root : Node := root_node meth_src meth_tree.

(** The accumulators [_find_functions] builds for a sample file, and the
    first of them. *)
Definition sample_buckets (root : Node) : list (Key * Bucket) :=
  collect_buckets (_captures sample_parser "functions" root).

Definition first_bucket (root : Node) : Bucket :=
  match sample_buckets root with
  | (_, info) :: _ => info
  | [] => {| b_signature := root; b_name := None; b_params := None |}
  end.

(** In [meth_src]: the method wrapper around the signature of [m], and the
    comment before it. *)
Definition meth_container : Node := container_of (b_signature (first_bucket meth_root)).

Definition meth_comment : Node :=
  match prev_sibling meth_container with
  | Some c => c
  | None => meth_root
  end.

End Samples.

(* ===================================================================== *)
(** ** Further notions used to state properties of the extractor *)
(* ===================================================================== *)

Module More.
Import TS Dart Spec Samples.

(** The (node, label) pairs of a captures dictionary, in dictionary order:
    the list [_captures] builds before it sorts. *)
Definition flatten (captures : list (string * list Node)) : list (Node * string) :=
  flat_map (fun '(capture_name, nodes) =>
              map (fun captured_node => (captured_node, capture_name)) nodes)
           captures.

(** The sort key of [_captures]. *)
Definition start_of (c : Node * string) : nat := start_byte (node_info (fst c)).

(** An engine that behaves like [e] except that compiling [pattern] raises
    [QueryError]. *)
Definition failing (pattern : string) (e : Engine) : Engine :=
  {| Query := Query e;
     compile_query := fun s => if String.eqb s pattern then None else compile_query e s;
     parse_bytes := parse_bytes e;
     query_captures := query_captures e |}.

(** [buckets.get(key)] *)
Fixpoint bucket_get (key : Key) (buckets : list (Key * Bucket)) : option Bucket :=
  match buckets with
  | [] => None
  | (k, b) :: rest => if key_eqb k key then Some b else bucket_get key rest
  end.

(** The labels [_find_functions] reacts to. *)
Definition function_labels : list string := ["function_node"; "name"; "params"].

(** The two tests of the documentation walk. *)
Definition skippable (n : Node) : bool :=
  Py.str_in (node_type n) [newline; " "; "metadata"].

Definition is_comment (n : Node) : bool := Py.contains "comment" (node_type n).

(** The two kinds of children the constructor-name loop collects, and what
    each contributes. *)
Definition is_name_token (child : Node) : bool :=
  String.eqb (node_type child) "identifier" || String.eqb (node_type child) ".".

Definition token (child : Node) : string :=
  if String.eqb (node_type child) "identifier" then text child else ".".

(** Whether [read_text] succeeds. *)
Definition readable (fs : FileSystem) (file_path : string) : bool :=
  match read_text fs file_path with
  | Some _ => true
  | None => false
  end.

(** The first and the last character of a string. *)
Definition first_char (s : string) : option ascii :=
  match s with
  | EmptyString => None
  | String c _ => Some c
  end.

Definition last_char (s : string) : option ascii := first_char (String.rev s).

(** The sorted function captures of the constructor sample: the signature,
    the identifiers [Type] and [named] (both labelled [name]) and the
    parameter list. *)
Definition ctor_captures : list (Node * string) :=
  _captures sample_parser "functions" ctor_root.

Definition ctor_signature : Node := b_signature (first_bucket ctor_root).

Definition ctor_last_name : Node :=
  match nth_error ctor_captures 2 with
  | Some (n, _) => n
  | None => ctor_root
  end.

End More.

(* ===================================================================== *)
(** ** Facts about the string operations *)
(* ===================================================================== *)

Module PyFacts.
Import Dart.

(** [sub in s] holds exactly when [sub] occurs in [s] at some offset. *)
Lemma contains_spec sub s :
  Py.contains sub s = true <->
  exists n, substring n (String.length sub) s = sub.
Proof.
  induction s as [|c s IH]; cbn [Py.contains]; rewrite orb_true_iff.
  - split.
    + intros [H | H]; [|discriminate H].
      exists 0. by apply String.prefix_correct.
    + intros [n H]. left. apply String.prefix_correct.
      destruct sub as [|a sub]; [done|].
      destruct n; simpl in H; discriminate H.
  - rewrite IH. split.
    + intros [H | [n H]]; [exists 0; by apply String.prefix_correct | by exists (S n)].
    + intros [[|n] H]; [left; by apply String.prefix_correct | right; by exists n].
Qed.

Lemma str_in_spec x l : Py.str_in x l = true <-> In x l.
Proof.
  unfold Py.str_in. rewrite existsb_exists. split.
  - intros (y & Hy & E). by apply String.eqb_eq in E as ->.
  - intros H. exists x. split; [exact H|apply String.eqb_refl].
Qed.

Lemma str_in_true x l : Py.str_in x l = true -> In x l.
Proof. apply str_in_spec. Qed.

Lemma str_in_In x l : In x l -> Py.str_in x l = true.
Proof. apply str_in_spec. Qed.

Lemma str_in_false x l : Py.str_in x l = false -> ~ In x l.
Proof. intros H Hin. apply str_in_In in Hin. congruence. Qed.

Example strip_quotes_single :
  Py.strip_chars quote_chars "'package:pkg/lib.dart'" = "package:pkg/lib.dart".
Proof. reflexivity. Qed.

Example strip_quotes_inner_kept :
  Py.strip_chars quote_chars "'''it's'''" = "it's".
Proof. reflexivity. Qed.

Example strip_quotes_raw_prefix :
  Py.strip_chars quote_chars "r'raw'" = "r'raw".
Proof. reflexivity. Qed.

Example strip_ascii_whitespace :
  Py.strip ("  /// Doc " +:+ newline) = "/// Doc".
Proof. reflexivity. Qed.

(** U+00A0 (C2 A0) and U+2028 (E2 80 A8) are whitespace, U+2014 (E2 80 94)
    is not. *)
Example strip_unicode_whitespace :
  Py.strip (String "194" (String "160" ("x" +:+
              String "226" (String "128" (String "168" EmptyString))))) = "x".
Proof. reflexivity. Qed.

Example strip_keeps_em_dash :
  Py.strip (String "226" (String "128" (String "148" EmptyString))) =
  String "226" (String "128" (String "148" EmptyString)).
Proof. reflexivity. Qed.

Example comment_types :
  Py.contains "comment" "documentation_comment" = true /\
  Py.contains "comment" "comment" = true /\
  Py.contains "comment" "metadata" = false.
Proof. repeat split. Qed.

End PyFacts.

(* ===================================================================== *)
(** ** Facts about tree navigation *)
(* ===================================================================== *)

Module TSFacts.
Import TS.

(** Induction on syntax trees, with the hypothesis for every child. *)
Lemma Syntax_rect' (P : Syntax -> Prop) :
  (forall i cs, Forall P cs -> P (Syn i cs)) -> forall t, P t.
Proof.
  intros step.
  fix IH 1.
  intros [i cs]. apply step.
  induction cs as [|c cs IHcs]; constructor; [apply IH | exact IHcs].
Qed.

Lemma children_from_focus src i up left right :
  map focus (children_from src i up left right) = right.
Proof.
  revert left. induction right as [|c r IH]; intros left; simpl; [done|].
  by rewrite IH.
Qed.

(** The children of a node are its subtrees, in order. *)
Lemma children_focus n : map focus (children n) = subtrees (focus n).
Proof. apply children_from_focus. Qed.

Lemma children_from_parent src i up left right c :
  In c (children_from src i up left right) ->
  parent c = Some {| source := src; focus := Syn i (rev_append left right); ctx := up |}.
Proof.
  revert left. induction right as [|x r IH]; intros left; simpl; [done|].
  intros [<- | Hin]; [done|].
  apply (IH (x :: left) Hin).
Qed.

(** [c.parent] of a child [c] of [n] is [n]. *)
Lemma parent_of_child n c : In c (children n) -> parent c = Some n.
Proof.
  intros Hin. apply children_from_parent in Hin. rewrite Hin.
  destruct n as [src [i cs] up]; reflexivity.
Qed.

(** The two chains are the iterations of [parent] and [prev_sibling]. *)
Lemma self_and_ancestors_unfold n :
  self_and_ancestors n =
  n :: match parent n with
       | Some p => self_and_ancestors p
       | None => []
       end.
Proof. destruct n as [src t [|f up]]; reflexivity. Qed.

Lemma prev_siblings_unfold n :
  prev_siblings n =
  match prev_sibling n with
  | Some p => p :: prev_siblings p
  | None => []
  end.
Proof. destruct n as [src t [|[i [|p l] r] up]]; reflexivity. Qed.

(** Navigation stays inside one tree. *)
Lemma root_of_parent n p : parent n = Some p -> root_of p = root_of n.
Proof.
  destruct n as [src t [|f up]]; simpl; [done|].
  intros [= <-]. reflexivity.
Qed.

Lemma root_of_ancestor n a : In a (self_and_ancestors n) -> root_of a = root_of n.
Proof.
  destruct n as [src t up]. unfold self_and_ancestors, root_of; simpl.
  revert t. induction up as [|f up IH]; intros t; simpl.
  - intros [<- | []]; reflexivity.
  - intros [<- | Hin]; [reflexivity|]. apply (IH _ Hin).
Qed.

Lemma next_named_from_spec src i up left right m :
  next_named_from src i up left right = Some m ->
  exists l' r' skipped,
    m = {| source := src; focus := focus m;
           ctx := {| f_info := i; f_left := l'; f_right := r' |} :: up |} /\
    right = skipped ++ focus m :: r' /\
    rev_append l' (focus m :: r') = rev_append left right.
Proof.
  revert left. induction right as [|c r IH]; intros left; simpl; [done|].
  destruct (is_named (info c)).
  - intros [= <-]. exists left, r, []. done.
  - intros H. destruct (IH _ H) as (l' & r' & sk & Hm & Hr & Hrev).
    exists l', r', (c :: sk). split; [done|]. split; [by rewrite Hr|done].
Qed.

Lemma root_of_next_named n m :
  next_named_sibling n = Some m -> root_of m = root_of n.
Proof.
  destruct n as [src t [|f up]]; simpl; [done|].
  unfold next_named_sibling; simpl. intros H.
  apply next_named_from_spec in H as (l' & r' & sk & Hm & _ & Hrev).
  rewrite Hm. unfold root_of; simpl. unfold plug; simpl.
  rewrite Hrev. reflexivity.
Qed.

(** *** Position ordering *)

Lemma ple_spec p q :
  ple p q <-> (fst p < fst q \/ (fst p = fst q /\ snd p <= snd q))%nat.
Proof.
  unfold ple, point_leb.
  rewrite orb_true_iff, andb_true_iff, Nat.ltb_lt, Nat.eqb_eq, Nat.leb_le.
  reflexivity.
Qed.

Lemma ple_trans p q r : ple p q -> ple q r -> ple p r.
Proof. rewrite !ple_spec. lia. Qed.

Lemma ple_row p q : ple p q -> (fst p <= fst q)%nat.
Proof. rewrite ple_spec. lia. Qed.

Lemma well_positioned_unfold i cs :
  well_positioned (Syn i cs) = chain_ok (end_point i) (start_point i) cs.
Proof.
  simpl. generalize (start_point i) as lo.
  induction cs as [|c cs IH]; intros lo; simpl; [done|].
  by rewrite IH.
Qed.

Lemma well_positioned_span t :
  well_positioned t = true -> ple (start_point (info t)) (end_point (info t)).
Proof.
  induction t as [i cs IH] using Syntax_rect'.
  rewrite well_positioned_unfold. simpl.
  generalize (start_point i) as lo.
  induction IH as [|c cs Hc _ IHcs]; intros lo; simpl; [done|].
  rewrite !andb_true_iff. intros [[Hlo Hwp] Hrest].
  eapply ple_trans; [exact Hlo|].
  eapply ple_trans; [apply Hc, Hwp|].
  apply IHcs, Hrest.
Qed.

Lemma chain_ok_bounds hi lo l : chain_ok hi lo l = true -> ple lo hi.
Proof.
  revert lo. induction l as [|c l IH]; intros lo; simpl; [done|].
  rewrite !andb_true_iff. intros [[Hlo Hwp] Hrest].
  eapply ple_trans; [exact Hlo|].
  eapply ple_trans; [apply well_positioned_span, Hwp|].
  apply IH, Hrest.
Qed.

(** An element in the middle of a chain: it starts after the lower bound,
    is itself well positioned, and the rest of the chain starts at its
    end. *)
Lemma chain_ok_middle hi lo l1 t l2 :
  chain_ok hi lo (l1 ++ t :: l2) = true ->
  ple lo (start_point (info t)) /\ well_positioned t = true /\
  chain_ok hi (end_point (info t)) l2 = true.
Proof.
  revert lo. induction l1 as [|c l1 IH]; intros lo; simpl.
  - rewrite !andb_true_iff. tauto.
  - rewrite !andb_true_iff. intros [[Hlo Hwp] Hrest].
    destruct (IH _ Hrest) as (H1 & H2 & H3).
    split; [|done].
    eapply ple_trans; [exact Hlo|].
    eapply ple_trans; [apply well_positioned_span, Hwp|exact H1].
Qed.

Lemma plug_well_positioned f t :
  well_positioned (plug f t) = true ->
  ple (start_point (f_info f)) (start_point (info t)) /\
  well_positioned t = true /\
  chain_ok (end_point (f_info f)) (end_point (info t)) (f_right f) = true.
Proof.
  unfold plug. rewrite well_positioned_unfold, rev_append_rev.
  apply chain_ok_middle.
Qed.

Lemma zip_up_well_positioned t up :
  well_positioned (zip_up t up) = true -> well_positioned t = true.
Proof.
  revert t. induction up as [|f up IH]; intros t; simpl; [done|].
  intros H. apply IH in H. apply plug_well_positioned in H. tauto.
Qed.

Lemma zip_up_frame t f up :
  well_positioned (zip_up t (f :: up)) = true -> well_positioned (plug f t) = true.
Proof. simpl. apply zip_up_well_positioned. Qed.

(** *** Rows of a valid node and of its neighbours *)

Lemma valid_rows n : valid_node n = true -> (start_row n <= end_row n)%nat.
Proof.
  intros H. apply ple_row, well_positioned_span.
  destruct n as [src t up]. by apply zip_up_well_positioned in H.
Qed.

Lemma valid_parent n p :
  valid_node n = true -> parent n = Some p ->
  valid_node p = true /\ (start_row p <= start_row n)%nat /\
  (end_row n <= end_row p)%nat.
Proof.
  intros Hv Hp. split.
  - unfold valid_node. by rewrite (root_of_parent _ _ Hp).
  - destruct n as [src t [|f up]]; simpl in Hp; [done|].
    injection Hp as <-.
    apply zip_up_frame, plug_well_positioned in Hv as (H1 & _ & H3).
    split; [by apply ple_row|].
    apply ple_row. by apply chain_ok_bounds in H3.
Qed.

Lemma valid_next_named n m :
  valid_node n = true -> next_named_sibling n = Some m ->
  valid_node m = true /\ (end_row n <= start_row m)%nat.
Proof.
  intros Hv Hm. split.
  - unfold valid_node. by rewrite (root_of_next_named _ _ Hm).
  - destruct n as [src t [|f up]]; [done|].
    unfold next_named_sibling in Hm; simpl in Hm.
    apply zip_up_frame, plug_well_positioned in Hv as (_ & _ & H3).
    apply next_named_from_spec in Hm as (l' & r' & sk & Hm & Hr & _).
    simpl in H3. rewrite Hr in H3.
    apply chain_ok_middle in H3 as (H & _ & _).
    apply ple_row in H. rewrite Hm. exact H.
Qed.

End TSFacts.

(* ===================================================================== *)
(** ** Facts about the extractor *)
(* ===================================================================== *)

Module DartFacts.
Import TS Dart TSFacts.

(** *** Where the entities come from *)

Lemma find_functions_origin self root f :
  In f (_find_functions self root) ->
  exists k info,
    In (k, info) (collect_buckets (_captures self "functions" root)) /\
    emit_function (language_name self) info = Some f.
Proof.
  unfold _find_functions.
  destruct (_captures self "functions" root) as [|c cs] eqn:E; [intros []|].
  intros Hin. apply list_elem_of_In, list_elem_of_omap in Hin as ([k info] & Hin & He).
  exists k, info. split; [by apply list_elem_of_In|exact He].
Qed.

Lemma find_classes_origin self root c :
  In c (_find_classes self root) ->
  exists node,
    In (node, "class") (_captures self "classes" root) /\
    c = class_entity (language_name self) node.
Proof.
  unfold _find_classes. intros Hin.
  apply in_flat_map in Hin as ([node cap] & Hin & Hc).
  destruct (String.eqb cap "class") eqn:E; [|destruct Hc].
  apply String.eqb_eq in E as ->. destruct Hc as [<- | []].
  by exists node.
Qed.

Lemma find_imports_origin self root i :
  In i (_find_imports self root) ->
  exists node,
    In (node, "path") (_captures self "imports" root) /\
    i = import_entity (language_name self) node.
Proof.
  unfold _find_imports. intros Hin.
  apply in_flat_map in Hin as ([node cap] & Hin & Hc).
  destruct (String.eqb cap "path") eqn:E; simpl in Hc; [|destruct Hc].
  apply String.eqb_eq in E as ->. destruct Hc as [<- | []].
  by exists node.
Qed.

Lemma find_variables_origin self root v :
  In v (_find_variables self root) ->
  exists info, emit_variable (language_name self) info = Some v.
Proof.
  unfold _find_variables.
  destruct (_captures self "variables" root) as [|c cs]; [intros []|].
  intros Hin. apply list_elem_of_In, list_elem_of_omap in Hin as (info & _ & He).
  by exists info.
Qed.

(** *** Invariants of the accumulator dictionary *)

(** Every accumulator's signature is what [find_signature] returned for a
    captured node. *)
Lemma setdefault_Forall (Q : Bucket -> Prop) key entry buckets :
  Q entry -> Forall (fun kv => Q (snd kv)) buckets ->
  Forall (fun kv => Q (snd kv)) (setdefault key entry buckets).
Proof.
  intros He. induction 1 as [|[k b] rest Hb Hrest IH]; simpl.
  - by repeat constructor.
  - destruct (key_eqb k key); by constructor.
Qed.

Lemma update_Forall (Q : Bucket -> Prop) key f buckets :
  (forall b, Q b -> Q (f b)) -> Forall (fun kv => Q (snd kv)) buckets ->
  Forall (fun kv => Q (snd kv)) (update key f buckets).
Proof.
  intros Hf. induction 1 as [|[k b] rest Hb Hrest IH]; simpl; [constructor|].
  destruct (key_eqb k key); constructor; simpl; auto.
Qed.

(** A property of accumulators that holds for a fresh entry and does not
    depend on the name and parameter fields holds throughout. *)
Lemma collect_buckets_Forall (Q : Bucket -> Prop) captures :
  (forall s b, Q b -> Q (set_name s b)) ->
  (forall p b, Q b -> Q (set_params p b)) ->
  (forall node cap sig,
      In (node, cap) captures -> find_signature node = Some sig ->
      Q {| b_signature := sig; b_name := None; b_params := None |}) ->
  Forall (fun kv => Q (snd kv)) (collect_buckets captures).
Proof.
  intros Hname Hparams Hfresh. unfold collect_buckets.
  assert (Hgen : forall cs bs,
    (forall c, In c cs -> In c captures) ->
    Forall (fun kv => Q (snd kv)) bs ->
    Forall (fun kv => Q (snd kv)) (fold_left collect_step cs bs)).
  { induction cs as [|[node cap] cs IH]; intros bs Hsub Hbs; simpl; [done|].
    apply IH; [intros c Hc; apply Hsub; by right|].
    assert (Hnode : In (node, cap) captures) by (apply Hsub; by left).
    unfold node_for_params, bucket.
    repeat case_match; eauto using setdefault_Forall, update_Forall. }
  apply Hgen; [done|constructor].
Qed.

Lemma bucket_signature_origin captures k info :
  In (k, info) (collect_buckets captures) ->
  exists node cap,
    In (node, cap) captures /\ find_signature node = Some (b_signature info).
Proof.
  intros Hin.
  pose proof (collect_buckets_Forall
    (fun b => exists node cap,
       In (node, cap) captures /\ find_signature node = Some (b_signature b))
    captures) as H.
  rewrite List.Forall_forall in H.
  apply (H (fun _ _ Hb => Hb) (fun _ _ Hb => Hb)) in Hin; [exact Hin|].
  intros node cap sig Hnode Hsig. by exists node, cap.
Qed.

Lemma find_signature_ancestor node sig :
  find_signature node = Some sig -> In sig (self_and_ancestors node).
Proof. intros H. by apply find_some in H as [? _]. Qed.

Lemma bucket_signature_valid captures k info :
  forallb (fun c => valid_node (fst c)) captures = true ->
  In (k, info) (collect_buckets captures) ->
  valid_node (b_signature info) = true.
Proof.
  intros Hv Hin.
  apply bucket_signature_origin in Hin as (node & cap & Hin & Hsig).
  rewrite forallb_forall in Hv. specialize (Hv _ Hin). simpl in Hv.
  apply find_signature_ancestor, root_of_ancestor in Hsig.
  unfold valid_node in *. by rewrite Hsig.
Qed.

(** *** Spans *)

Lemma as_body_Some candidate b : as_body candidate = Some b -> candidate = Some b.
Proof.
  destruct candidate as [c|]; simpl; [|done].
  destruct (String.eqb (node_type c) "function_body"); by intros [= ->].
Qed.

Lemma wrapper_of_parent fn_node p :
  wrapper_of fn_node = Some p -> parent fn_node = Some p.
Proof.
  unfold wrapper_of. destruct (parent fn_node) as [q|]; [|done].
  destruct (Py.str_in (node_type q) container_types); by intros [= ->].
Qed.

Lemma container_rows fn_node :
  valid_node fn_node = true ->
  valid_node (container_of fn_node) = true /\
  (start_row (container_of fn_node) <= start_row fn_node)%nat.
Proof.
  intros Hv. unfold container_of.
  destruct (wrapper_of fn_node) as [p|] eqn:E; [|auto].
  apply wrapper_of_parent in E.
  destruct (valid_parent _ _ Hv E) as (? & ? & ?). auto.
Qed.

(** The declaration starts no later than it ends, whichever node ends it. *)
Lemma span_rows fn_node :
  valid_node fn_node = true ->
  (start_row (container_of fn_node) <= end_row (end_node_of fn_node))%nat.
Proof.
  intros Hv.
  destruct (container_rows _ Hv) as [Hc Hstart].
  pose proof (valid_rows _ Hv) as Hfn.
  pose proof (valid_rows _ Hc) as Hcont.
  unfold end_node_of, body_of.
  destruct (as_body (next_named_sibling (container_of fn_node))) as [b|] eqn:E1.
  - apply as_body_Some in E1.
    destruct (valid_next_named _ _ Hc E1) as [Hb Hle].
    pose proof (valid_rows _ Hb). lia.
  - destruct (as_body (next_named_sibling fn_node)) as [b|] eqn:E2; [|exact Hcont].
    apply as_body_Some in E2.
    destruct (valid_next_named _ _ Hv E2) as [Hb Hle].
    pose proof (valid_rows _ Hb). lia.
Qed.

Lemma emit_function_lines language_name info f :
  emit_function language_name info = Some f ->
  fn_line_number f = start_row (container_of (b_signature info)) + 1 /\
  fn_end_line f = end_row (end_node_of (b_signature info)) + 1.
Proof.
  unfold emit_function. destruct (resolve_name info); [|done].
  by intros [= <-].
Qed.

End DartFacts.

(* ===================================================================== *)
(** ** Properties of the extractor *)
(* ===================================================================== *)

Import TS Dart Spec Samples PyFacts TSFacts DartFacts.

Example samples_well_positioned :
  forallb (fun s => well_positioned (s_tree s)) samples = true.
Proof. reflexivity. Qed.

(** C7.  Every entity has a 1-based [line_number], and where the entity has
    an [end_line] (functions and classes) it is not before [line_number].
    Valid input: the file is readable and the captured nodes sit in
    well-positioned trees. *)
Theorem line_numbers_ordered self fs path d src :
  read_text fs path = Some src ->
  valid_captures self (root_node src (parse_bytes (engine self) src)) = true ->
  let r := parse self fs path d in
  (forall f, In f (functions r) ->
     1 <= fn_line_number f /\ fn_line_number f <= fn_end_line f) /\
  (forall c, In c (classes r) ->
     1 <= cls_line_number c /\ cls_line_number c <= cls_end_line c) /\
  (forall v, In v (variables r) -> 1 <= var_line_number v) /\
  (forall i, In i (imports r) -> 1 <= imp_line_number i).
Proof.
  intros Hread Hvalid. unfold parse. rewrite Hread. simpl.
  unfold valid_captures in Hvalid. rewrite forallb_app, andb_true_iff in Hvalid.
  destruct Hvalid as [Hfun Hcls].
  split; [|split; [|split]].
  - intros f Hf.
    apply find_functions_origin in Hf as (k & info & Hin & He).
    pose proof (bucket_signature_valid _ _ _ Hfun Hin) as Hv.
    apply emit_function_lines in He as [-> ->].
    pose proof (span_rows _ Hv). lia.
  - intros c Hc.
    apply find_classes_origin in Hc as (node & Hin & ->). simpl.
    rewrite forallb_forall in Hcls. specialize (Hcls _ Hin). simpl in Hcls.
    pose proof (valid_rows _ Hcls) as Hrows.
    unfold start_row, end_row, node_info in *. lia.
  - intros v Hv.
    apply find_variables_origin in Hv as (info & He).
    unfold emit_variable in He.
    destruct (negb (Py.truthy (vb_name info))); [done|].
    destruct (vb_name info); [|done]. injection He as <-. simpl. lia.
  - intros i Hi.
    apply find_imports_origin in Hi as (node & _ & ->). simpl. lia.
Qed.

Lemma line_numbers_ordered_witness :
  let r := parse sample_parser sample_fs "lib/meth.dart" false in
  (forall f, In f (functions r) ->
     1 <= fn_line_number f /\ fn_line_number f <= fn_end_line f) /\
  (forall c, In c (classes r) ->
     1 <= cls_line_number c /\ cls_line_number c <= cls_end_line c) /\
  (forall v, In v (variables r) -> 1 <= var_line_number v) /\
  (forall i, In i (imports r) -> 1 <= imp_line_number i).
Proof.
  apply (line_numbers_ordered sample_parser sample_fs "lib/meth.dart" false meth_src);
    reflexivity.
Defined.

(** C6.  When the file cannot be read, [parse] returns the record with the
    file path, the caller's flag, the language tag and five empty lists. *)
Theorem parse_unreadable e fs path d :
  read_text fs path = None ->
  parse (__init__ e) fs path d =
  {| file_path := path;
     functions := [];
     classes := [];
     variables := [];
     imports := [];
     function_calls := [];
     is_dependency := d;
     lang := "dart" |}.
Proof. intros Hread. unfold parse. by rewrite Hread. Qed.

Lemma parse_unreadable_witness :
  parse (__init__ sample_engine) sample_fs "lib/none.dart" true =
  {| file_path := "lib/none.dart";
     functions := [];
     classes := [];
     variables := [];
     imports := [];
     function_calls := [];
     is_dependency := true;
     lang := "dart" |}.
Proof. apply (parse_unreadable sample_engine sample_fs "lib/none.dart" true). reflexivity. Defined.

(** C9, as stated, fails: parsing a file that declares a class with
    [is_dependency=True] produces a class entity whose flag is [False]. *)
Lemma is_dependency_not_echoed_on_entities :
  ~ (forall c,
       In c (classes (parse sample_parser sample_fs "lib/foo.dart" true)) ->
       cls_is_dependency c = true).
Proof.
  intros H. apply (proj2 (forallb_forall _ _)) in H.
  vm_compute in H. discriminate H.
Qed.

(** C9, amended.  The flag of the aggregated file record is the caller's
    value; the flag of every function, class, variable, import and call
    entity is the constant [False], whatever the caller passed. *)
Theorem is_dependency_fields self fs path d :
  let r := parse self fs path d in
  is_dependency r = d /\
  (forall f, In f (functions r) -> fn_is_dependency f = false) /\
  (forall c, In c (classes r) -> cls_is_dependency c = false) /\
  (forall v, In v (variables r) -> var_is_dependency v = false) /\
  (forall i, In i (imports r) -> imp_is_dependency i = false).
Proof.
  unfold parse. destruct (read_text fs path) as [src|]; simpl.
  2: { repeat split; intros ? []. }
  split; [reflexivity|]. split; [|split; [|split]].
  - intros f Hf. apply find_functions_origin in Hf as (k & info & _ & He).
    unfold emit_function in He. destruct (resolve_name info); [|done].
    by injection He as <-.
  - intros c Hc. by apply find_classes_origin in Hc as (node & _ & ->).
  - intros v Hv. apply find_variables_origin in Hv as (info & He).
    unfold emit_variable in He.
    destruct (negb (Py.truthy (vb_name info))); [done|].
    destruct (vb_name info); [|done]. by injection He as <-.
  - intros i Hi. by apply find_imports_origin in Hi as (node & _ & ->).
Qed.

Lemma is_dependency_fields_witness :
  let r := parse sample_parser sample_fs "lib/foo2.dart" true in
  is_dependency r = true /\
  (forall f, In f (functions r) -> fn_is_dependency f = false) /\
  (forall c, In c (classes r) -> cls_is_dependency c = false) /\
  (forall v, In v (variables r) -> var_is_dependency v = false) /\
  (forall i, In i (imports r) -> imp_is_dependency i = false).
Proof. exact (is_dependency_fields sample_parser sample_fs "lib/foo2.dart" true). Defined.

(** *** Class names *)

Lemma find_classes_map self root :
  _find_classes self root =
  map (fun c => class_entity (language_name self) (fst c))
      (List.filter (fun c => String.eqb (snd c) "class") (_captures self "classes" root)).
Proof.
  unfold _find_classes.
  induction (_captures self "classes" root) as [|[node cap] cs IH]; simpl; [done|].
  rewrite IH. by destruct (String.eqb cap "class").
Qed.

Lemma find_first (A : Type) (p : A -> bool) pre c post :
  (forall x, In x pre -> p x = false) -> p c = true ->
  List.find p (pre ++ c :: post) = Some c.
Proof.
  intros Hpre Hc. induction pre as [|x pre IH]; simpl.
  - by rewrite Hc.
  - rewrite (Hpre x) by (by left). apply IH. intros y Hy. apply Hpre. by right.
Qed.

Lemma find_none (A : Type) (p : A -> bool) l :
  (forall x, In x l -> p x = false) -> List.find p l = None.
Proof.
  induction l as [|x l IH]; simpl; [done|]. intros H.
  rewrite (H x) by (by left). apply IH. intros y Hy. apply H. by right.
Qed.

Lemma not_identifier x :
  node_type x <> "identifier" -> String.eqb (node_type x) "identifier" = false.
Proof. intros H. by apply String.eqb_neq. Qed.

(** C5.  One class entity per [class] capture, in capture order; its name is
    the text of the name field if the declaration has one, else the text of
    the first identifier among its immediate children, else the sentinel
    [extension] (the entity is kept, not dropped). *)
Theorem class_entity_names self root :
  Forall2
    (fun (capture : Node * string) (e : ClassEntity) =>
       let node := fst capture in
       (forall nm, child_by_field_name node "name" = Some nm ->
          cls_name e = text nm) /\
       (child_by_field_name node "name" = None ->
        forall pre c post,
          children node = pre ++ c :: post ->
          (forall x, In x pre -> node_type x <> "identifier") ->
          node_type c = "identifier" ->
          cls_name e = text c) /\
       (child_by_field_name node "name" = None ->
        (forall x, In x (children node) -> node_type x <> "identifier") ->
        cls_name e = "extension"))
    (List.filter (fun c => String.eqb (snd c) "class") (_captures self "classes" root))
    (_find_classes self root).
Proof.
  rewrite find_classes_map.
  induction (List.filter _ _) as [|[node cap] cs IH]; simpl; constructor; [|exact IH].
  simpl. unfold class_name_text. split; [|split].
  - intros nm ->. reflexivity.
  - intros -> pre c post Hch Hpre Hc. unfold first_identifier. rewrite Hch.
    rewrite find_first; [reflexivity| |by rewrite Hc].
    intros x Hx. by apply not_identifier, Hpre.
  - intros -> Hnone. unfold first_identifier.
    rewrite find_none; [reflexivity|].
    intros x Hx. by apply not_identifier, Hnone.
Qed.

Lemma class_entity_names_witness :
  exists e,
    _find_classes sample_parser types_root !! 0%nat = Some e /\
    cls_name e = "extension".
Proof.
  pose proof (class_entity_names sample_parser types_root) as H.
  destruct (List.filter _ _) as [|[node cap] rest] eqn:E in H;
    [vm_compute in E; discriminate E|].
  destruct (_find_classes sample_parser types_root) as [|e es] eqn:E';
    [vm_compute in E'; discriminate E'|].
  apply Forall2_cons_1 in H as [(_ & _ & Hsentinel) _].
  exists e. split; [reflexivity|].
  vm_compute in E. injection E as <- _ _. simpl in Hsentinel.
  apply Hsentinel; [reflexivity|].
  intros x Hx. vm_compute in Hx.
  repeat (destruct Hx as [<- | Hx]; [vm_compute; discriminate|]).
  destruct Hx.
Defined.

(** *** The complexity census *)

Lemma decision_points_unfold i cs :
  decision_points (Syn i cs) =
  (if Py.str_in (type i) complexity_nodes then 1 else 0) +
  list_sum (map decision_points cs).
Proof.
  unfold decision_points. simpl subtree_nodes. simpl List.filter.
  unfold is_decision_point at 1. simpl info.
  assert (Hsum : length (List.filter is_decision_point (flat_map subtree_nodes cs)) =
                 list_sum (map (fun t => length (List.filter is_decision_point
                                                   (subtree_nodes t))) cs)).
  { induction cs as [|c cs IH]; simpl; [done|].
    by rewrite List.filter_app, length_app, IH. }
  destruct (Py.str_in (type i) complexity_nodes); simpl; by rewrite Hsum.
Qed.

Lemma walk_unfold i cs count :
  walk (Syn i cs) count =
  fold_left (fun count c => walk c count) cs
            (if Py.str_in (type i) complexity_nodes then count + 1 else count).
Proof. reflexivity. Qed.

(** The counter threaded through [walk] grows by the number of decision
    points of the subtree. *)
Lemma walk_counts t : forall count, walk t count = count + decision_points t.
Proof.
  induction t as [i cs IH] using Syntax_rect'. intros count.
  rewrite decision_points_unfold, walk_unfold.
  set (c0 := if Py.str_in (type i) complexity_nodes then count + 1 else count).
  assert (Hfold : forall c, fold_left (fun count c => walk c count) cs c =
                            c + list_sum (map decision_points cs)).
  { induction IH as [|x cs Hx _ IHcs]; intros c; simpl; [lia|].
    rewrite IHcs, Hx. lia. }
  rewrite Hfold. subst c0.
  destruct (Py.str_in (type i) complexity_nodes); lia.
Qed.

Lemma calc_complexity_counts node :
  _calc_complexity node = 1 + decision_points (focus node).
Proof. apply walk_counts. Qed.

(** C2, as stated, fails: for [int f([int a = true ? 1 : 2]) { return a; }]
    the signature holds a conditional expression, the body holds no decision
    point, and the reported complexity is 1, not 1 + 1. *)
Lemma complexity_skips_signature :
  exists f,
    emit_function "dart" (first_bucket dflt_root) = Some f /\
    In f (functions (parse sample_parser sample_fs "lib/dflt.dart" false)) /\
    full_span_decision_points (b_signature (first_bucket dflt_root)) = 1 /\
    fn_cyclomatic_complexity f <>
    1 + full_span_decision_points (b_signature (first_bucket dflt_root)).
Proof.
  destruct (emit_function "dart" (first_bucket dflt_root)) as [f|] eqn:Ef;
    [|vm_compute in Ef; discriminate Ef].
  exists f. split; [reflexivity|].
  vm_compute in Ef. injection Ef as <-.
  split; [vm_compute; by left|].
  split; [reflexivity|].
  vm_compute. discriminate.
Qed.

(** C2, amended.  The complexity of a function entity is 1 plus the number
    of decision-point nodes in the subtree of the body node when the
    declaration has a body, and in the subtree of the container node (the
    wrapper, or the signature itself) when it has none. *)
Theorem complexity_counts_end_node language_name info f :
  emit_function language_name info = Some f ->
  fn_cyclomatic_complexity f =
  1 + match body_of (b_signature info) with
      | Some body => decision_points (focus body)
      | None => decision_points (focus (container_of (b_signature info)))
      end.
Proof.
  unfold emit_function. destruct (resolve_name info); [|done].
  intros [= <-]. simpl. rewrite calc_complexity_counts.
  unfold end_node_of. by destruct (body_of (b_signature info)).
Qed.

Lemma complexity_counts_end_node_witness :
  exists f,
    emit_function "dart" (first_bucket dflt_root) = Some f /\
    fn_cyclomatic_complexity f = 1.
Proof.
  destruct (emit_function "dart" (first_bucket dflt_root)) as [f|] eqn:Ef;
    [|vm_compute in Ef; discriminate Ef].
  exists f. split; [reflexivity|].
  rewrite (complexity_counts_end_node "dart" (first_bucket dflt_root) f Ef).
  reflexivity.
Defined.

(** *** Documentation lookup *)

Lemma leading_comment_found node c :
  prev_sibling node = Some c ->
  Py.contains "comment" (node_type c) = true ->
  _leading_line_comment node = Some (Py.strip (text c)).
Proof.
  intros Hprev Hc. unfold _leading_line_comment.
  rewrite prev_siblings_unfold, Hprev. simpl.
  rewrite Hc. by rewrite orb_true_r.
Qed.

(** C10.  When the declaration has a wrapper (the container is not the
    signature node) and the walk from the signature finds no comment, the
    docstring is the result of the walk from the container; so a comment
    immediately before the wrapper becomes the docstring. *)
Theorem docstring_retried_at_container language_name info f container :
  emit_function language_name info = Some f ->
  wrapper_of (b_signature info) = Some container ->
  _leading_line_comment (b_signature info) = None ->
  fn_docstring f = _leading_line_comment container /\
  (forall c,
     prev_sibling container = Some c ->
     Py.contains "comment" (node_type c) = true ->
     fn_docstring f = Some (Py.strip (text c))).
Proof.
  intros He Hw Hsig.
  assert (Hdoc : fn_docstring f = _leading_line_comment container).
  { unfold emit_function in He. destruct (resolve_name info); [|done].
    injection He as <-. simpl. unfold doc_of. by rewrite Hsig, Hw. }
  split; [exact Hdoc|].
  intros c Hprev Hc. rewrite Hdoc. by apply leading_comment_found.
Qed.

Lemma docstring_retried_at_container_witness :
  exists f,
    emit_function "dart" (first_bucket meth_root) = Some f /\
    fn_docstring f = Some "/// Doc".
Proof.
  destruct (emit_function "dart" (first_bucket meth_root)) as [f|] eqn:Ef;
    [|vm_compute in Ef; discriminate Ef].
  exists f. split; [reflexivity|].
  destruct (docstring_retried_at_container "dart" (first_bucket meth_root) f
              meth_container Ef eq_refl eq_refl) as [_ Hcomment].
  rewrite (Hcomment meth_comment eq_refl eq_refl). reflexivity.
Defined.

(** *** Unnamed declarations *)

Lemma resolve_name_unresolvable info :
  Py.truthy (b_name info) = false ->
  Py.truthy (_extract_function_name (b_signature info)) = false ->
  resolve_name info = None.
Proof.
  intros Hname Hderived. unfold resolve_name. rewrite Hname. simpl.
  by rewrite Hderived.
Qed.

(** C4.  A declaration whose captured name and derived name are both empty
    or absent produces no function entity; [parse] still returns its record,
    in which the functions are exactly those of the other declarations and
    the other entity lists are what their finders compute. *)
Theorem unnamed_declaration_excluded self fs path d src pre k info post :
  read_text fs path = Some src ->
  let root := root_node src (parse_bytes (engine self) src) in
  collect_buckets (_captures self "functions" root) = pre ++ (k, info) :: post ->
  Py.truthy (b_name info) = false ->
  Py.truthy (_extract_function_name (b_signature info)) = false ->
  emit_function (language_name self) info = None /\
  parse self fs path d =
  {| file_path := path;
     functions := emit_functions (language_name self) pre ++
                  emit_functions (language_name self) post;
     classes := _find_classes self root;
     variables := _find_variables self root;
     imports := _find_imports self root;
     function_calls := _find_calls self root;
     is_dependency := d;
     lang := language_name self |}.
Proof.
  intros Hread root Hbuckets Hname Hderived.
  assert (Hnone : emit_function (language_name self) info = None).
  { unfold emit_function. by rewrite resolve_name_unresolvable. }
  split; [exact Hnone|].
  unfold parse. rewrite Hread. fold root. f_equal.
  unfold _find_functions.
  destruct (_captures self "functions" root) as [|c cs] eqn:E.
  { destruct pre; discriminate Hbuckets. }
  rewrite Hbuckets. unfold emit_functions.
  rewrite omap_app. simpl. by rewrite Hnone.
Qed.

Lemma unnamed_declaration_excluded_witness :
  map fn_name (functions (parse sample_parser sample_fs "lib/anon.dart" false)) = ["g"].
Proof.
  destruct (unnamed_declaration_excluded sample_parser sample_fs "lib/anon.dart"
              false anon_src []
              (key_of (b_signature (first_bucket anon_root)))
              (first_bucket anon_root)
              (tl (sample_buckets anon_root))
              eq_refl eq_refl eq_refl eq_refl) as [_ ->].
  reflexivity.
Defined.

(** *** The pre-scan index *)

Lemma all_nodup_insert m sym paths :
  all_nodup m -> NoDup paths -> all_nodup (<[sym := paths]> m).
Proof.
  intros Hm Hp sym' paths'. rewrite lookup_insert. case_decide.
  - by intros [= <-].
  - apply Hm.
Qed.

Lemma add_symbol_nodup fs file_path m node :
  all_nodup m -> all_nodup (index_of (add_symbol fs file_path m node)).
Proof.
  intros Hm. unfold add_symbol.
  set (m1 := match m !! text node with Some _ => m | None => <[text node := []]> m end).
  assert (Hm1 : all_nodup m1).
  { subst m1. destruct (m !! text node); [exact Hm|].
    apply all_nodup_insert; [exact Hm|constructor]. }
  destruct (resolve fs file_path) as [fullpath|]; [|exact Hm1].
  destruct (Py.str_in fullpath (default [] (m1 !! text node))) eqn:Ein; simpl;
    [exact Hm1|].
  apply all_nodup_insert; [exact Hm1|].
  apply NoDup_app. split; [|split].
  - destruct (m1 !! text node) as [l|] eqn:El; simpl; [by eapply Hm1|constructor].
  - intros x Hx Hx'. apply list_elem_of_In in Hx. apply list_elem_of_In in Hx'.
    destruct Hx' as [<- | []]. by apply str_in_false in Ein.
  - apply NoDup_singleton.
Qed.

Lemma scan_nodes_nodup fs file_path nodes m :
  all_nodup m -> all_nodup (index_of (scan_nodes fs file_path nodes m)).
Proof.
  revert m. induction nodes as [|node rest IH]; intros m Hm; simpl; [exact Hm|].
  pose proof (add_symbol_nodup fs file_path m node Hm) as Hstep.
  destruct (add_symbol fs file_path m node) as [m'|m']; simpl in *; auto.
Qed.

Lemma scan_captures_nodup fs file_path captures m :
  all_nodup m -> all_nodup (index_of (scan_captures fs file_path captures m)).
Proof.
  revert m. induction captures as [|[cap_name nodes] rest IH]; intros m Hm; simpl;
    [exact Hm|].
  destruct (negb (String.eqb cap_name "name")); [by apply IH|].
  pose proof (scan_nodes_nodup fs file_path nodes m Hm) as Hstep.
  destruct (scan_nodes fs file_path nodes m) as [m'|m']; simpl in *; auto.
Qed.

Lemma scan_file_nodup e fs query m file_path :
  all_nodup m -> all_nodup (scan_file e fs query m file_path).
Proof.
  intros Hm. unfold scan_file.
  destruct (read_text fs file_path); [|exact Hm].
  by apply scan_captures_nodup.
Qed.

Lemma pre_scan_all_nodup e fs files : all_nodup (pre_scan_dart e fs files).
Proof.
  unfold pre_scan_dart. destruct (compile_query e prescan_pattern) as [query|].
  - assert (Hgen : forall m, all_nodup m ->
                     all_nodup (fold_left (scan_file e fs query) files m)).
    { induction files as [|f files IH]; intros m Hm; simpl; [exact Hm|].
      by apply IH, scan_file_nodup. }
    apply Hgen. intros sym paths. by rewrite lookup_empty.
  - intros sym paths. by rewrite lookup_empty.
Qed.

(** C8.  Whatever the file list (repetitions included), every symbol's list
    of paths in the index returned by the pre-scan is free of duplicates. *)
Theorem pre_scan_paths_nodup e fs files sym paths :
  pre_scan_dart e fs files !! sym = Some paths -> NoDup paths.
Proof. apply pre_scan_all_nodup. Qed.

Lemma pre_scan_paths_nodup_witness :
  NoDup ["/repo/lib/foo.dart"; "/repo/lib/foo2.dart"].
Proof.
  apply (pre_scan_paths_nodup sample_engine sample_fs
           ["lib/foo.dart"; "lib/foo2.dart"; "lib/foo.dart"; "lib/foo2.dart"] "Foo").
  vm_compute. reflexivity.
Defined.

(** *** Constructor names and parameter names *)

Lemma truthy_dotted x y : Py.truthy (Some (x +:+ "." +:+ y)) = true.
Proof. by destruct x. Qed.

(** The dotted name of a constructor signature whose children start with
    identifier, [.], identifier and then another kind of node: it replaces
    whatever the name capture held. *)
Lemma constructor_dotted_name info a dot b p rest :
  node_type (b_signature info) = "constructor_signature" ->
  children (b_signature info) = a :: dot :: b :: p :: rest ->
  node_type a = "identifier" -> node_type dot = "." -> node_type b = "identifier" ->
  node_type p <> "identifier" -> node_type p <> "." ->
  resolve_name info = Some (text a +:+ "." +:+ text b).
Proof.
  intros Hty Hch Ha Hdot Hb Hp1 Hp2.
  assert (Hderived : _extract_function_name (b_signature info) =
                     Some (text a +:+ "." +:+ text b)).
  { unfold _extract_function_name. rewrite Hty, Hch. simpl.
    rewrite Ha, Hdot, Hb. simpl.
    apply String.eqb_neq in Hp1, Hp2. rewrite Hp1, Hp2. simpl.
    reflexivity. }
  pose proof (truthy_dotted (text a) (text b)) as Hnonempty.
  unfold resolve_name. rewrite Hderived, Hty.
  rewrite String.eqb_refl, Hnonempty. simpl andb.
  destruct (Py.truthy (b_name info)); simpl; by destruct (text a).
Qed.

(** Parameters that sit directly under the captured list are read only when
    they are of type [simple_formal_parameter]. *)
Lemma extract_params_direct_only_simple p :
  (forall child, In child (children p) ->
     node_type child <> "formal_parameter_list" /\
     node_type child <> "simple_formal_parameter") ->
  extract_params (Some p) = [].
Proof.
  unfold extract_params. induction (children p) as [|child rest IH]; intros H; simpl;
    [done|].
  destruct (H child (or_introl eq_refl)) as [H1 H2].
  apply String.eqb_neq in H1, H2. rewrite H1, H2. simpl.
  apply IH. intros c Hc. apply H. by right.
Qed.

Lemma extract_params_simple p lp c rp idn :
  children p = [lp; c; rp] ->
  node_type lp = "(" -> node_type rp = ")" ->
  node_type c = "simple_formal_parameter" ->
  child_by_field_name c "name" = Some idn ->
  extract_params (Some p) = [text idn].
Proof.
  intros Hch Hlp Hrp Hc Hname. unfold extract_params. rewrite Hch. simpl.
  rewrite Hlp, Hrp, Hc. simpl. unfold param_name. by rewrite Hname.
Qed.

(** C1, on the code.  For [Type.named(int x)] with the typed parameter
    directly under the captured parameter list, the entity is named
    [Type.named] but its argument list is empty: the loop over the captured
    list's children looks for a nested [formal_parameter_list] or a
    [simple_formal_parameter] and reads [normal_formal_parameter] only inside
    the nested list. *)
Theorem constructor_args_missed :
  map (fun f => (fn_name f, fn_args f))
      (functions (parse sample_parser sample_fs "lib/ctor.dart" false))
  = [("Type.named", [])].
Proof. vm_compute. reflexivity. Qed.

(** *** Import records *)

Lemma find_imports_map self root :
  _find_imports self root =
  map (fun c => import_entity (language_name self) (fst c))
      (List.filter (fun c => String.eqb (snd c) "path") (_captures self "imports" root)).
Proof.
  unfold _find_imports.
  induction (_captures self "imports" root) as [|[node cap] cs IH]; simpl; [done|].
  rewrite IH. by destruct (String.eqb cap "path").
Qed.

(** What an import record holds: the literal without its quotes, twice, no
    alias, and the line of the literal's parent node. *)
Lemma import_entity_fields language_name node :
  let e := import_entity language_name node in
  imp_name e = Py.strip_chars quote_chars (text node) /\
  imp_full_import_name e = imp_name e /\
  imp_alias e = None /\
  imp_line_number e =
    match parent node with
    | Some p => start_row p + 1
    | None => start_row node + 1
    end.
Proof. simpl. repeat split. by destruct (parent node). Qed.

(** C3, on the code.  For an import directive written over two lines the
    record carries the line of the [uri] node around the literal (line 2),
    while the directive starts on line 1. *)
Theorem import_line_is_parent_line :
  map (fun i => (imp_name i, imp_full_import_name i, imp_alias i, imp_line_number i))
      (imports (parse sample_parser sample_fs "lib/imp.dart" false))
  = [("package:pkg/lib.dart", "package:pkg/lib.dart", None, 2)] /\
  (fun n => (node_type n, start_row n + 1)) <$> descend imp_root [0]
  = Some ("import_or_export", 1) /\
  (fun n => (node_type n, start_row n + 1)) <$>
    (descend imp_root [0; 0; 0; 1; 0; 0] ≫= parent)
  = Some ("uri", 2).
Proof. vm_compute. repeat split. Qed.

(** *** Scanning again *)

Lemma extends_refl m : extends m m.
Proof. intros sym l H. by exists l. Qed.

Lemma extends_trans m1 m2 m3 : extends m1 m2 -> extends m2 m3 -> extends m1 m3.
Proof.
  intros H12 H23 sym l H. destruct (H12 _ _ H) as (l2 & H2 & Hsub2).
  destruct (H23 _ _ H2) as (l3 & H3 & Hsub3). exists l3. split; auto.
Qed.

Lemma known_extends fs file_path m m' node :
  known fs file_path m node -> extends m m' -> known fs file_path m' node.
Proof.
  unfold known. intros Hk Hext. destruct (resolve fs file_path) as [p|].
  - destruct Hk as (l & Hl & Hin). destruct (Hext _ _ Hl) as (l' & Hl' & Hsub).
    exists l'. auto.
  - destruct Hk as [l Hl]. destruct (Hext _ _ Hl) as (l' & Hl' & _). by exists l'.
Qed.

Lemma add_symbol_extends fs file_path m node :
  extends m (index_of (add_symbol fs file_path m node)).
Proof.
  unfold add_symbol.
  set (m1 := match m !! text node with Some _ => m | None => <[text node := []]> m end).
  assert (H1 : extends m m1).
  { subst m1. destruct (m !! text node) eqn:E; [apply extends_refl|].
    intros sym l Hl. exists l. split; [|done].
    rewrite lookup_insert_ne; [done|]. intros <-. congruence. }
  destruct (resolve fs file_path) as [p|]; [|exact H1].
  destruct (negb (Py.str_in p (default [] (m1 !! text node)))); [|exact H1].
  eapply extends_trans; [exact H1|]. simpl.
  intros sym l Hl. destruct (decide (sym = text node)) as [->|Hne].
  - rewrite lookup_insert_eq. eexists. split; [reflexivity|].
    rewrite Hl. simpl. intros x Hx. apply in_or_app. by left.
  - rewrite lookup_insert_ne by done. by exists l.
Qed.

Lemma add_symbol_known fs file_path m node :
  known fs file_path (index_of (add_symbol fs file_path m node)) node.
Proof.
  unfold known, add_symbol.
  set (m1 := match m !! text node with Some _ => m | None => <[text node := []]> m end).
  assert (H1 : is_Some (m1 !! text node)).
  { subst m1. destruct (m !! text node) eqn:E; [by rewrite E|].
    by rewrite lookup_insert_eq. }
  destruct (resolve fs file_path) as [p|]; [|exact H1].
  destruct H1 as [l Hl]. rewrite Hl. simpl.
  destruct (Py.str_in p l) eqn:Ein; simpl.
  - exists l. split; [exact Hl|by apply str_in_true].
  - rewrite lookup_insert_eq. eexists. split; [reflexivity|].
    apply in_or_app. right. by left.
Qed.

Lemma add_symbol_stable fs file_path m node :
  known fs file_path m node ->
  add_symbol fs file_path m node =
  match resolve fs file_path with
  | Some _ => Done m
  | None => Raised m
  end.
Proof.
  unfold known, add_symbol. destruct (resolve fs file_path) as [p|].
  - intros (l & Hl & Hin). rewrite Hl. simpl. rewrite Hl. simpl.
    by rewrite (str_in_In _ _ Hin).
  - intros [l Hl]. by rewrite Hl.
Qed.

Lemma scan_nodes_app fs file_path a b m :
  scan_nodes fs file_path (a ++ b) m =
  match scan_nodes fs file_path a m with
  | Done m' => scan_nodes fs file_path b m'
  | Raised m' => Raised m'
  end.
Proof.
  revert m. induction a as [|node a IH]; intros m; simpl; [done|].
  destruct (add_symbol fs file_path m node); [apply IH|done].
Qed.

Lemma scan_captures_flat fs file_path captures m :
  scan_captures fs file_path captures m =
  scan_nodes fs file_path (name_nodes captures) m.
Proof.
  revert m. induction captures as [|[cap_name nodes] rest IH]; intros m; simpl;
    [done|].
  destruct (String.eqb cap_name "name"); simpl; [|apply IH].
  rewrite scan_nodes_app.
  destruct (scan_nodes fs file_path nodes m); [apply IH|done].
Qed.

Lemma scan_nodes_extends fs file_path nodes m :
  extends m (index_of (scan_nodes fs file_path nodes m)).
Proof.
  revert m. induction nodes as [|node rest IH]; intros m; simpl; [apply extends_refl|].
  pose proof (add_symbol_extends fs file_path m node) as Hstep.
  destruct (add_symbol fs file_path m node) as [m'|m']; simpl in *; [|exact Hstep].
  eapply extends_trans; [exact Hstep|apply IH].
Qed.

Lemma scan_nodes_known fs file_path nodes m :
  Forall (known fs file_path (index_of (scan_nodes fs file_path nodes m)))
         (visited fs file_path nodes).
Proof.
  revert m. induction nodes as [|node rest IH]; intros m.
  { unfold visited. destruct (resolve fs file_path); constructor. }
  simpl scan_nodes.
  pose proof (add_symbol_known fs file_path m node) as Hk.
  destruct (add_symbol fs file_path m node) as [m'|m'] eqn:E; simpl in Hk.
  - specialize (IH m').
    pose proof (scan_nodes_extends fs file_path rest m') as Hext.
    unfold visited in *. destruct (resolve fs file_path) as [p|]; simpl.
    + constructor; [by eapply known_extends|exact IH].
    + constructor; [by eapply known_extends|constructor].
  - simpl. unfold visited. destruct (resolve fs file_path) as [p|] eqn:Er; simpl.
    + unfold add_symbol in E. rewrite Er in E.
      by destruct (negb _) in E.
    + constructor; [exact Hk|constructor].
Qed.

Lemma scan_nodes_stable fs file_path nodes m :
  Forall (known fs file_path m) (visited fs file_path nodes) ->
  index_of (scan_nodes fs file_path nodes m) = m.
Proof.
  induction nodes as [|node rest IH]; simpl; [done|].
  unfold visited in *. destruct (resolve fs file_path) as [p|] eqn:Er; simpl.
  - intros H. apply Forall_cons_1 in H as [Hn Hrest].
    rewrite (add_symbol_stable _ _ _ _ Hn), Er. by apply IH.
  - intros H. apply Forall_cons_1 in H as [Hn _].
    by rewrite (add_symbol_stable _ _ _ _ Hn), Er.
Qed.

Lemma scan_file_extends e fs query m file_path :
  extends m (scan_file e fs query m file_path).
Proof.
  unfold scan_file. destruct (read_text fs file_path); [|apply extends_refl].
  rewrite scan_captures_flat. apply scan_nodes_extends.
Qed.

Lemma scan_file_known e fs query m file_path :
  Forall (known fs file_path (scan_file e fs query m file_path))
         (file_nodes e fs query file_path).
Proof.
  unfold scan_file, file_nodes. destruct (read_text fs file_path); [|constructor].
  rewrite scan_captures_flat. apply scan_nodes_known.
Qed.

Lemma scan_file_stable e fs query m file_path :
  Forall (known fs file_path m) (file_nodes e fs query file_path) ->
  scan_file e fs query m file_path = m.
Proof.
  unfold scan_file, file_nodes. destruct (read_text fs file_path); [|done].
  rewrite scan_captures_flat. apply scan_nodes_stable.
Qed.

Lemma scan_files_extends e fs query files m :
  extends m (fold_left (scan_file e fs query) files m).
Proof.
  revert m. induction files as [|f files IH]; intros m; simpl; [apply extends_refl|].
  eapply extends_trans; [apply scan_file_extends|apply IH].
Qed.

Lemma scan_files_known e fs query files m f :
  In f files ->
  Forall (known fs f (fold_left (scan_file e fs query) files m))
         (file_nodes e fs query f).
Proof.
  revert m. induction files as [|f0 files IH]; intros m; simpl; [intros []|].
  intros [-> | Hin]; [|by apply IH].
  eapply Forall_impl; [apply scan_file_known|].
  intros node Hk. eapply known_extends; [exact Hk|apply scan_files_extends].
Qed.

Lemma scan_files_stable e fs query files m :
  (forall f, In f files -> Forall (known fs f m) (file_nodes e fs query f)) ->
  fold_left (scan_file e fs query) files m = m.
Proof.
  induction files as [|f files IH]; simpl; [done|]. intros H.
  rewrite scan_file_stable by (apply H; by left).
  apply IH. intros f' Hf'. apply H. by right.
Qed.

(** X18.  Scanning files that were already scanned changes nothing: in
    particular scanning the same file set twice gives the index of scanning
    it once. *)
Lemma pre_scan_again e fs files again :
  (forall f, In f again -> In f files) ->
  pre_scan_dart e fs (files ++ again) = pre_scan_dart e fs files.
Proof.
  intros Hsub. unfold pre_scan_dart.
  destruct (compile_query e prescan_pattern) as [query|]; [|done].
  rewrite fold_left_app. apply scan_files_stable.
  intros f Hf. apply scan_files_known, Hsub, Hf.
Qed.

Lemma pre_scan_again_witness :
  pre_scan_dart sample_engine sample_fs
    (["lib/foo.dart"; "lib/foo2.dart"; "lib/ctor.dart"] ++
     ["lib/foo2.dart"; "lib/foo.dart"; "lib/foo2.dart"]) =
  pre_scan_dart sample_engine sample_fs
    ["lib/foo.dart"; "lib/foo2.dart"; "lib/ctor.dart"].
Proof.
  apply (pre_scan_again sample_engine sample_fs
           ["lib/foo.dart"; "lib/foo2.dart"; "lib/ctor.dart"]
           ["lib/foo2.dart"; "lib/foo.dart"; "lib/foo2.dart"]).
  intros f Hf. simpl in Hf. simpl. tauto.
Defined.

Lemma pre_scan_twice e fs files :
  pre_scan_dart e fs (files ++ files) = pre_scan_dart e fs files.
Proof.
  unfold pre_scan_dart.
  destruct (compile_query e prescan_pattern) as [query|]; [|done].
  rewrite fold_left_app. apply scan_files_stable.
  intros f Hf. by apply scan_files_known.
Qed.

(* ===================================================================== *)
(** ** Further properties: capture ordering *)
(* ===================================================================== *)

Import More.

Lemma captures_unfold self query_name node query :
  dict_get query_name (queries self) = Some (Some query) ->
  _captures self query_name node =
  sort_by_start (flatten (query_captures (engine self) query node)).
Proof. intros H. unfold _captures. by rewrite H. Qed.

Lemma insert_by_start_perm x l : Permutation (insert_by_start x l) (x :: l).
Proof.
  induction l as [|y l IH]; simpl; [done|].
  destruct (Nat.leb _ _); [done|].
  rewrite IH. apply perm_swap.
Qed.

Lemma sort_by_start_perm l : Permutation (sort_by_start l) l.
Proof.
  induction l as [|x l IH]; simpl; [done|].
  rewrite insert_by_start_perm. by constructor.
Qed.

Lemma insert_by_start_sorted x l :
  StronglySorted (fun a b => start_of a <= start_of b) l ->
  StronglySorted (fun a b => start_of a <= start_of b) (insert_by_start x l).
Proof.
  induction 1 as [|y l Hl IH Hy]; simpl.
  - repeat constructor.
  - fold (start_of x). fold (start_of y).
    destruct (Nat.leb (start_of x) (start_of y)) eqn:E.
    + apply Nat.leb_le in E. constructor; [by constructor|].
      constructor; [exact E|].
      eapply Forall_impl; [exact Hy|]. intros z Hz. simpl in Hz. lia.
    + apply Nat.leb_gt in E. constructor; [exact IH|].
      rewrite (insert_by_start_perm x l). constructor; [lia|exact Hy].
Qed.

Lemma sort_by_start_sorted l :
  StronglySorted (fun a b => start_of a <= start_of b) (sort_by_start l).
Proof.
  induction l as [|x l IH]; simpl; [constructor|].
  by apply insert_by_start_sorted.
Qed.

Lemma insert_by_start_filter k x l :
  List.filter (fun c => Nat.eqb (start_of c) k) (insert_by_start x l) =
  List.filter (fun c => Nat.eqb (start_of c) k) (x :: l).
Proof.
  induction l as [|y l IH]; [done|].
  cbn [insert_by_start]. fold (start_of x). fold (start_of y).
  destruct (Nat.leb (start_of x) (start_of y)) eqn:E; [done|].
  apply Nat.leb_gt in E.
  cbn [List.filter] in *. rewrite IH.
  destruct (Nat.eqb (start_of x) k) eqn:Ex, (Nat.eqb (start_of y) k) eqn:Ey;
    try reflexivity.
  apply Nat.eqb_eq in Ex, Ey. lia.
Qed.

Lemma sort_by_start_filter k l :
  List.filter (fun c => Nat.eqb (start_of c) k) (sort_by_start l) =
  List.filter (fun c => Nat.eqb (start_of c) k) l.
Proof.
  induction l as [|x l IH]; [done|].
  cbn [sort_by_start fold_right]. fold (sort_by_start l).
  rewrite insert_by_start_filter. cbn [List.filter]. by rewrite IH.
Qed.

(** X1.  For a compiled query, [_captures] returns exactly the (node, label)
    pairs the engine reported, each as often as reported, in ascending order
    of the node's start byte. *)
Theorem captures_sorted_permutation self query_name node query :
  dict_get query_name (queries self) = Some (Some query) ->
  StronglySorted (fun a b => start_of a <= start_of b)
                 (_captures self query_name node) /\
  Permutation (_captures self query_name node)
              (flatten (query_captures (engine self) query node)).
Proof.
  intros H. rewrite (captures_unfold _ _ _ _ H).
  split; [apply sort_by_start_sorted|apply sort_by_start_perm].
Qed.

Lemma captures_sorted_permutation_witness :
  StronglySorted (fun a b => start_of a <= start_of b)
                 (_captures sample_parser "functions" anon_root) /\
  Permutation (_captures sample_parser "functions" anon_root)
              (flatten (query_captures sample_engine functions_pattern anon_root)).
Proof.
  apply (captures_sorted_permutation sample_parser "functions" anon_root
           functions_pattern).
  reflexivity.
Defined.

(** X2.  The sort of [_captures] is stable: the captures that start at one
    and the same byte keep the order in which the engine's dictionary listed
    them. *)
Theorem captures_stable self query_name node query k :
  dict_get query_name (queries self) = Some (Some query) ->
  List.filter (fun c => Nat.eqb (start_of c) k) (_captures self query_name node) =
  List.filter (fun c => Nat.eqb (start_of c) k)
              (flatten (query_captures (engine self) query node)).
Proof.
  intros H. rewrite (captures_unfold _ _ _ _ H). apply sort_by_start_filter.
Qed.

Lemma captures_stable_witness :
  map snd (List.filter (fun c => Nat.eqb (start_of c) 15)
                       (_captures sample_parser "functions" ctor_root)) =
  ["function_node"; "name"].
Proof.
  rewrite (captures_stable sample_parser "functions" ctor_root functions_pattern 15
             eq_refl).
  reflexivity.
Defined.

(* ===================================================================== *)
(** ** Further properties: query registry *)
(* ===================================================================== *)

(** What [__init__] leaves in [queries] under a name. *)
Lemma init_queries_get e query_name :
  dict_get query_name (queries (__init__ e)) =
  match dict_get query_name DART_QUERIES with
  | Some (Some s) => Some (if Py.truthy (Some s) then compile_query e s else None)
  | Some None => Some None
  | None => None
  end.
Proof.
  unfold __init__. cbn [queries]. generalize DART_QUERIES as d.
  induction d as [|[name q] d IH]; cbn [map dict_get]; [done|].
  destruct (String.eqb name query_name); [|exact IH].
  by destruct q.
Qed.

Lemma captures_uncompiled e query_name root :
  dict_get query_name DART_QUERIES = Some None ->
  _captures (__init__ e) query_name root = [].
Proof. intros H. unfold _captures. by rewrite init_queries_get, H. Qed.

(** X3.  The calls and variables queries are never compiled, so whatever the
    engine, the file and the flag, [parse] returns no call and no variable
    entity. *)
Theorem calls_and_variables_empty e fs path d :
  function_calls (parse (__init__ e) fs path d) = [] /\
  variables (parse (__init__ e) fs path d) = [].
Proof.
  unfold parse. destruct (read_text fs path) as [src|]; [|done]. simpl.
  unfold _find_calls, _find_variables.
  by rewrite !captures_uncompiled.
Qed.

Lemma captures_failing_other e pattern query_name s root :
  dict_get query_name DART_QUERIES = Some (Some s) ->
  String.eqb s pattern = false ->
  _captures (__init__ (failing pattern e)) query_name root =
  _captures (__init__ e) query_name root.
Proof.
  intros Hget Hne. unfold _captures.
  rewrite !init_queries_get, Hget.
  cbn [failing compile_query]. rewrite Hne. reflexivity.
Qed.

Lemma captures_failing_same e pattern query_name root :
  dict_get query_name DART_QUERIES = Some (Some pattern) ->
  _captures (__init__ (failing pattern e)) query_name root = [].
Proof.
  intros Hget. unfold _captures.
  rewrite init_queries_get, Hget.
  cbn [failing compile_query]. rewrite String.eqb_refl.
  by destruct (Py.truthy (Some pattern)).
Qed.

(** X4.  When the classes pattern fails to compile, every file yields an
    empty classes list, while the functions and imports are the ones the
    same engine yields when the pattern compiles. *)
Theorem failed_classes_query_only_empties_classes e fs path d :
  classes (parse (__init__ (failing classes_pattern e)) fs path d) = [] /\
  functions (parse (__init__ (failing classes_pattern e)) fs path d) =
    functions (parse (__init__ e) fs path d) /\
  imports (parse (__init__ (failing classes_pattern e)) fs path d) =
    imports (parse (__init__ e) fs path d).
Proof.
  unfold parse. destruct (read_text fs path) as [src|]; [|done].
  cbn [classes functions imports].
  unfold _find_classes, _find_functions, _find_imports.
  rewrite (captures_failing_same e classes_pattern "classes") by reflexivity.
  rewrite (captures_failing_other e classes_pattern "functions" functions_pattern)
    by reflexivity.
  rewrite (captures_failing_other e classes_pattern "imports" imports_pattern)
    by reflexivity.
  done.
Qed.

(* ===================================================================== *)
(** ** Further properties: function entities *)
(* ===================================================================== *)

Lemma resolve_name_nonempty info s : resolve_name info = Some s -> s <> "".
Proof.
  unfold resolve_name.
  set (name := if negb (Py.truthy (b_name info)) then _ else _).
  destruct (Py.truthy name) eqn:E; simpl; [|done].
  intros -> ->. discriminate E.
Qed.

(** X5.  No function entity has an empty name. *)
Theorem function_names_nonempty self root f :
  In f (_find_functions self root) -> fn_name f <> "".
Proof.
  intros Hf. apply find_functions_origin in Hf as (k & info & _ & He).
  unfold emit_function in He. destruct (resolve_name info) as [s|] eqn:E; [|done].
  injection He as <-. simpl. by eapply resolve_name_nonempty.
Qed.

Lemma function_names_nonempty_witness :
  match _find_functions sample_parser anon_root with
  | f :: _ => fn_name f <> ""
  | [] => False
  end.
Proof.
  destruct (_find_functions sample_parser anon_root) as [|f fs] eqn:E;
    [vm_compute in E; discriminate E|].
  apply (function_names_nonempty sample_parser anon_root f).
  rewrite E. by left.
Defined.

Lemma walk_at_least t : forall count, count <= walk t count.
Proof.
  induction t as [i cs IH] using Syntax_rect'. intros count.
  rewrite walk_unfold.
  set (c0 := if Py.str_in (type i) complexity_nodes then count + 1 else count).
  assert (H0 : count <= c0) by (subst c0; destruct (Py.str_in _ _); lia).
  clearbody c0. revert c0 H0.
  induction IH as [|x cs Hx _ IHcs]; intros c0 H0; simpl; [exact H0|].
  apply IHcs. specialize (Hx c0). lia.
Qed.

(** X6.  Every function entity has a cyclomatic complexity of at least 1. *)
Theorem function_complexity_positive self root f :
  In f (_find_functions self root) -> 1 <= fn_cyclomatic_complexity f.
Proof.
  intros Hf. apply find_functions_origin in Hf as (k & info & _ & He).
  unfold emit_function in He. destruct (resolve_name info); [|done].
  injection He as <-. simpl. apply walk_at_least.
Qed.

Lemma function_complexity_positive_witness :
  match _find_functions sample_parser dflt_root with
  | f :: _ => 1 <= fn_cyclomatic_complexity f
  | [] => False
  end.
Proof.
  destruct (_find_functions sample_parser dflt_root) as [|f fs] eqn:E;
    [vm_compute in E; discriminate E|].
  apply (function_complexity_positive sample_parser dflt_root f).
  rewrite E. by left.
Defined.

Lemma walk_shift t : forall count, walk t count = count + (walk t 1 - 1).
Proof.
  induction t as [i cs IH] using Syntax_rect'. intros count.
  rewrite !walk_unfold.
  assert (Hfold : forall c, fold_left (fun count c => walk c count) cs c =
                            c + list_sum (map (fun t => walk t 1 - 1) cs)).
  { induction IH as [|x cs Hx _ IHcs]; intros c; simpl; [lia|].
    rewrite IHcs, Hx. lia. }
  rewrite !Hfold. destruct (Py.str_in (type i) complexity_nodes); lia.
Qed.

Lemma fold_walk_shift cs : forall c,
  fold_left (fun count c => walk c count) cs c =
  c + list_sum (map (fun t => walk t 1 - 1) cs).
Proof.
  induction cs as [|x cs IHcs]; intros c; simpl; [lia|].
  rewrite IHcs, (walk_shift x c). lia.
Qed.

(** X7.  The complexity of a node is composed of the complexities of its
    children: 1, plus 1 when the node itself is a decision point, plus what
    each child contributes beyond its own base of 1. *)
Theorem complexity_of_children node :
  _calc_complexity node =
  1 + (if Py.str_in (node_type node) complexity_nodes then 1 else 0) +
  list_sum (map (fun c => _calc_complexity c - 1) (children node)).
Proof.
  unfold _calc_complexity.
  assert (Hmap : map (fun c => walk (focus c) 1 - 1) (children node) =
                 map (fun t => walk t 1 - 1) (subtrees (focus node))).
  { rewrite <- children_focus. by rewrite map_map. }
  rewrite Hmap. unfold node_type, node_info.
  destruct (focus node) as [i cs]. rewrite walk_unfold. simpl info. simpl subtrees.
  rewrite fold_walk_shift. destruct (Py.str_in (type i) complexity_nodes); lia.
Qed.

(* ===================================================================== *)
(** ** Further properties: the accumulator dictionary *)
(* ===================================================================== *)

Lemma key_eqb_eq a b : key_eqb a b = true <-> a = b.
Proof.
  unfold key_eqb. rewrite andb_true_iff, !Nat.eqb_eq.
  destruct a, b; simpl. split; [by intros [-> ->]|by intros [= -> ->]].
Qed.

Lemma key_eqb_neq a b : key_eqb a b = false <-> a <> b.
Proof.
  rewrite <- key_eqb_eq. destruct (key_eqb a b); split; congruence.
Qed.

Lemma setdefault_keys key entry buckets k :
  In k (map fst (setdefault key entry buckets)) <->
  In k (map fst buckets) \/ k = key.
Proof.
  induction buckets as [|[k' b] rest IH]; simpl.
  - split; [intros [<- | []]; by right | intros [[] | ->]; by left].
  - destruct (key_eqb k' key) eqn:E; simpl.
    + apply key_eqb_eq in E as ->. split; [by left|intros [H | ->]; [exact H|by left]].
    + rewrite IH. tauto.
Qed.

Lemma setdefault_keys_nodup key entry buckets :
  NoDup (map fst buckets) -> NoDup (map fst (setdefault key entry buckets)).
Proof.
  induction buckets as [|[k b] rest IH]; simpl; intros Hnd.
  - apply NoDup_singleton.
  - destruct (key_eqb k key) eqn:E; [exact Hnd|]. simpl.
    apply NoDup_cons in Hnd as [Hk Hrest]. apply NoDup_cons. split; [|by apply IH].
    rewrite list_elem_of_In, setdefault_keys. intros [H | ->].
    + by apply Hk, list_elem_of_In.
    + apply key_eqb_neq in E. by apply E.
Qed.

Lemma omap_length_le {A B : Type} (f : A -> option B) (l : list A) :
  length (omap f l) <= length l.
Proof.
  induction l as [|x l IH]; [done|].
  change (omap f (x :: l))
    with (match f x with Some y => y :: omap f l | None => omap f l end).
  destruct (f x); simpl; lia.
Qed.

Lemma update_keys key f buckets : map fst (update key f buckets) = map fst buckets.
Proof.
  induction buckets as [|[k b] rest IH]; simpl; [done|].
  destruct (key_eqb k key); simpl; by rewrite ?IH.
Qed.

Lemma collect_step_keys buckets c k :
  In k (map fst buckets) -> In k (map fst (collect_step buckets c)).
Proof.
  intros H. destruct c as [node cap]. unfold collect_step, node_for_params, bucket.
  repeat case_match; rewrite ?update_keys, ?setdefault_keys; auto.
Qed.

Lemma collect_step_keys_nodup buckets c :
  NoDup (map fst buckets) -> NoDup (map fst (collect_step buckets c)).
Proof.
  intros H. destruct c as [node cap]. unfold collect_step, node_for_params, bucket.
  repeat case_match; rewrite ?update_keys; auto using setdefault_keys_nodup.
Qed.

Lemma collect_step_adds buckets node cap sig :
  In cap function_labels ->
  find_signature node = Some sig ->
  In (key_of sig) (map fst (collect_step buckets (node, cap))).
Proof.
  intros Hcap Hsig. unfold collect_step, node_for_params, bucket. rewrite Hsig.
  destruct Hcap as [<- | [<- | [<- | []]]]; simpl;
    rewrite ?update_keys, setdefault_keys; by right.
Qed.

Lemma fold_collect_keys captures buckets k :
  In k (map fst buckets) -> In k (map fst (fold_left collect_step captures buckets)).
Proof.
  revert buckets. induction captures as [|c cs IH]; intros bs H; simpl; [exact H|].
  by apply IH, collect_step_keys.
Qed.

Lemma find_signature_type node sig :
  find_signature node = Some sig ->
  Py.str_in (node_type sig) signature_types = true.
Proof. intros H. by apply find_some in H as [_ ?]. Qed.

Lemma setdefault_Forall_pairs (P : Key * Bucket -> Prop) key entry buckets :
  P (key, entry) -> Forall P buckets -> Forall P (setdefault key entry buckets).
Proof.
  intros He. induction 1 as [|[k b] rest Hb Hrest IH]; simpl.
  - by repeat constructor.
  - destruct (key_eqb k key); by constructor.
Qed.

Lemma update_Forall_pairs (P : Key * Bucket -> Prop) key f buckets :
  (forall k b, P (k, b) -> P (k, f b)) ->
  Forall P buckets -> Forall P (update key f buckets).
Proof.
  intros Hf. induction 1 as [|[k b] rest Hb Hrest IH]; simpl; [constructor|].
  destruct (key_eqb k key); constructor; auto.
Qed.

Lemma collect_buckets_keyed captures :
  Forall (fun kv : Key * Bucket =>
            fst kv = key_of (b_signature (snd kv)) /\
            Py.str_in (node_type (b_signature (snd kv))) signature_types = true)
         (collect_buckets captures).
Proof.
  unfold collect_buckets.
  assert (Hgen : forall bs,
    Forall (fun kv : Key * Bucket =>
              fst kv = key_of (b_signature (snd kv)) /\
              Py.str_in (node_type (b_signature (snd kv))) signature_types = true) bs ->
    Forall (fun kv : Key * Bucket =>
              fst kv = key_of (b_signature (snd kv)) /\
              Py.str_in (node_type (b_signature (snd kv))) signature_types = true)
           (fold_left collect_step captures bs)).
  { induction captures as [|[node cap] cs IH]; intros bs Hbs; simpl; [done|].
    apply IH. unfold node_for_params, bucket.
    repeat case_match; try done;
      repeat first
        [ apply update_Forall_pairs; [by intros k b [? ?]|]
        | apply setdefault_Forall_pairs;
          [simpl; split; [done|by eapply find_signature_type]|] ];
      done. }
  apply Hgen. constructor.
Qed.

(** X8.  The accumulators of [_find_functions] are keyed by the byte span of
    their own signature node, no two of them share a span, and every
    signature node is of one of the four signature types: one declaration
    span gives at most one function entity. *)
Theorem buckets_keyed_by_span self root :
  let buckets := collect_buckets (_captures self "functions" root) in
  NoDup (map fst buckets) /\
  (forall k info,
     In (k, info) buckets ->
     k = key_of (b_signature info) /\
     In (node_type (b_signature info)) signature_types) /\
  length (_find_functions self root) <= length buckets.
Proof.
  cbv zeta. generalize (eq_refl (_captures self "functions" root)).
  unfold _find_functions.
  generalize (_captures self "functions" root) at 1 3 4 5 as captures.
  intros captures Hc.
  split; [|split].
  - unfold collect_buckets.
    assert (Hgen : forall bs, NoDup (map fst bs) ->
                     NoDup (map fst (fold_left collect_step captures bs))).
    { clear Hc. induction captures as [|c cs IH]; intros bs H; simpl; [exact H|].
      by apply IH, collect_step_keys_nodup. }
    apply Hgen. apply NoDup_nil_2.
  - intros k info Hin.
    pose proof (collect_buckets_keyed captures) as H.
    rewrite List.Forall_forall in H. destruct (H _ Hin) as [Hk Hty].
    split; [exact Hk|]. by apply str_in_true.
  - destruct captures; [simpl; lia|]. unfold emit_functions. apply omap_length_le.
Qed.

Lemma buckets_keyed_by_span_witness :
  NoDup (map fst (sample_buckets anon_root)) /\
  length (_find_functions sample_parser anon_root) <= length (sample_buckets anon_root).
Proof.
  destruct (buckets_keyed_by_span sample_parser anon_root) as (Hnd & _ & Hlen).
  split; [exact Hnd|exact Hlen].
Defined.

(** X9.  Every capture labelled [function_node], [name] or [params] that
    lies in (or is) a signature node has an accumulator under that
    signature's span. *)
Theorem captured_signature_has_bucket captures node cap sig :
  In (node, cap) captures ->
  In cap function_labels ->
  find_signature node = Some sig ->
  In (key_of sig) (map fst (collect_buckets captures)).
Proof.
  intros Hin Hcap Hsig. unfold collect_buckets.
  generalize (@nil (Key * Bucket)) as bs.
  induction captures as [|c cs IH]; intros bs; [destruct Hin|].
  simpl. destruct Hin as [-> | Hin]; [|by apply IH].
  by apply fold_collect_keys, collect_step_adds.
Qed.

Lemma captured_signature_has_bucket_witness :
  In (key_of (b_signature (first_bucket meth_root)))
     (map fst (collect_buckets (_captures sample_parser "functions" meth_root))).
Proof.
  destruct (_captures sample_parser "functions" meth_root) as [|[node cap] cs] eqn:E;
    [vm_compute in E; discriminate E|].
  rewrite <- E.
  apply (captured_signature_has_bucket
           (_captures sample_parser "functions" meth_root) node cap).
  - rewrite E. by left.
  - vm_compute in E. injection E as _ <- _. by left.
  - vm_compute in E. injection E as <- _ _. reflexivity.
Defined.

Lemma bucket_get_setdefault key key' entry buckets b :
  bucket_get key buckets = Some b ->
  bucket_get key (setdefault key' entry buckets) = Some b.
Proof.
  induction buckets as [|[k x] rest IH]; simpl; [done|].
  destruct (key_eqb k key') eqn:E'; simpl; [done|].
  destruct (key_eqb k key); [done|exact IH].
Qed.

Lemma bucket_get_setdefault_same key entry buckets :
  bucket_get key (setdefault key entry buckets) =
  Some (default entry (bucket_get key buckets)).
Proof.
  induction buckets as [|[k x] rest IH]; simpl.
  - assert (key_eqb key key = true) as -> by by apply key_eqb_eq.
    done.
  - destruct (key_eqb k key) eqn:E; simpl; rewrite E; [done|exact IH].
Qed.

Lemma bucket_get_update_same key f buckets :
  bucket_get key (update key f buckets) = f <$> bucket_get key buckets.
Proof.
  induction buckets as [|[k x] rest IH]; simpl; [done|].
  destruct (key_eqb k key) eqn:E; simpl; rewrite E; [done|exact IH].
Qed.

Lemma bucket_get_update_other key key' f buckets :
  key' <> key ->
  bucket_get key (update key' f buckets) = bucket_get key buckets.
Proof.
  intros Hne. induction buckets as [|[k x] rest IH]; simpl; [done|].
  destruct (key_eqb k key') eqn:E'; simpl.
  - apply key_eqb_eq in E' as ->.
    assert (key_eqb key' key = false) as -> by by apply key_eqb_neq.
    done.
  - destruct (key_eqb k key); [done|exact IH].
Qed.

(** The name an accumulator holds survives every later capture that is not a
    name capture of the same span. *)
Lemma collect_step_keeps_name key s buckets node cap :
  (cap = "name" ->
   forall sig, find_signature node = Some sig -> key_of sig <> key) ->
  (exists info, bucket_get key buckets = Some info /\ b_name info = Some s) ->
  exists info,
    bucket_get key (collect_step buckets (node, cap)) = Some info /\
    b_name info = Some s.
Proof.
  intros Hother (info & Hget & Hname).
  unfold collect_step, node_for_params, bucket.
  destruct (String.eqb cap "function_node") eqn:E1.
  { destruct (find_signature node) as [sig|]; [|by exists info].
    exists info. split; [by apply bucket_get_setdefault|done]. }
  destruct (String.eqb cap "name") eqn:E2.
  { apply String.eqb_eq in E2.
    destruct (find_signature node) as [sig|] eqn:Es; [|by exists info].
    exists info. split; [|done].
    rewrite bucket_get_update_other by (by apply Hother).
    by apply bucket_get_setdefault. }
  destruct (String.eqb cap "params") eqn:E3; [|by exists info].
  destruct (find_signature node) as [fn|]; [|by exists info].
  destruct (decide (key_of fn = key)) as [->|Hne].
  - exists (set_params node info). split; [|done].
    by rewrite bucket_get_update_same,
      (bucket_get_setdefault _ _ _ _ _ Hget).
  - exists info. split; [|done].
    rewrite bucket_get_update_other by done.
    by apply bucket_get_setdefault.
Qed.

(** X10.  Among the name captures of one signature span the one that comes
    last in the sorted capture list names the accumulator: its text is what
    the accumulator holds when the captures have all been processed. *)
Theorem last_name_capture_wins earlier node later sig :
  find_signature node = Some sig ->
  (forall node' sig',
     In (node', "name") later -> find_signature node' = Some sig' ->
     key_of sig' <> key_of sig) ->
  exists info,
    bucket_get (key_of sig) (collect_buckets (earlier ++ (node, "name") :: later))
      = Some info /\
    b_name info = Some (text node).
Proof.
  intros Hsig Hlater. unfold collect_buckets.
  rewrite fold_left_app. cbn [fold_left].
  set (bs := fold_left collect_step earlier []).
  assert (Hnow : exists info,
            bucket_get (key_of sig) (collect_step bs (node, "name")) = Some info /\
            b_name info = Some (text node)).
  { unfold collect_step, bucket. simpl. rewrite Hsig.
    rewrite bucket_get_update_same, bucket_get_setdefault_same. simpl.
    eexists. split; [reflexivity|done]. }
  revert Hnow. generalize (collect_step bs (node, "name")) as bs'.
  clear bs. induction later as [|[n cap] later IH]; intros bs' H; [exact H|].
  cbn [fold_left]. apply IH.
  - intros node' sig' Hin. apply Hlater. by right.
  - apply collect_step_keeps_name; [|exact H].
    intros -> sig' Hs. eapply Hlater; [by left|exact Hs].
Qed.

Lemma last_name_capture_wins_witness :
  exists info,
    bucket_get (key_of ctor_signature)
      (collect_buckets (firstn 2 ctor_captures ++
                        (ctor_last_name, "name") :: skipn 3 ctor_captures))
      = Some info /\
    b_name info = Some "named".
Proof.
  apply (last_name_capture_wins (firstn 2 ctor_captures) ctor_last_name
           (skipn 3 ctor_captures) ctor_signature).
  - reflexivity.
  - intros node' sig' Hin. vm_compute in Hin.
    destruct Hin as [Hin | []]. discriminate Hin.
Defined.

Example ctor_captures_split :
  ctor_captures =
  firstn 2 ctor_captures ++ (ctor_last_name, "name") :: skipn 3 ctor_captures.
Proof. reflexivity. Qed.

(* ===================================================================== *)
(** ** Further properties: documentation and names *)
(* ===================================================================== *)

Lemma skippable_not_comment n : skippable n = true -> is_comment n = false.
Proof.
  unfold skippable, is_comment. intros H. apply str_in_true in H.
  destruct H as [<- | [<- | [<- | []]]]; reflexivity.
Qed.

Lemma leading_walk_cons prev rest :
  leading_walk (prev :: rest) =
  if skippable prev || is_comment prev
  then if is_comment prev then Some (Py.strip (text prev)) else leading_walk rest
  else None.
Proof. reflexivity. Qed.

Lemma leading_walk_spec chain d :
  leading_walk chain = Some d <->
  exists skipped c rest,
    chain = skipped ++ c :: rest /\
    Forall (fun s => skippable s = true) skipped /\
    is_comment c = true /\
    d = Py.strip (text c).
Proof.
  induction chain as [|prev chain IH].
  - split; [done|]. intros (skipped & c & rest & H & _). by destruct skipped.
  - rewrite leading_walk_cons.
    destruct (is_comment prev) eqn:Ec.
    + rewrite orb_true_r. split.
      * intros [= <-]. exists [], prev, chain. by repeat split.
      * intros ([|s skipped] & c & rest & H & Hskip & Hc & ->).
        -- by injection H as -> _.
        -- injection H as -> _. apply Forall_cons_1 in Hskip as [Hs _].
           apply skippable_not_comment in Hs. congruence.
    + rewrite orb_false_r. destruct (skippable prev) eqn:Es.
      * rewrite IH. split.
        -- intros (skipped & c & rest & -> & Hskip & Hc & ->).
           exists (prev :: skipped), c, rest. repeat split; [|done].
           by constructor.
        -- intros ([|s skipped] & c & rest & H & Hskip & Hc & ->).
           ++ injection H as -> _. congruence.
           ++ injection H as -> ->. apply Forall_cons_1 in Hskip as [_ Hskip].
              by exists skipped, c, rest.
      * split; [done|].
        intros ([|s skipped] & c & rest & H & Hskip & Hc & _).
        -- injection H as -> _. congruence.
        -- injection H as -> _. apply Forall_cons_1 in Hskip as [Hs _]. congruence.
Qed.

(** X11.  [_leading_line_comment] returns a text exactly when the previous
    siblings, nearest first, are a run of newline, space or metadata nodes
    followed by a node whose type contains [comment]; the text is that
    node's, stripped.  In every other case (no previous sibling, or another
    kind of node before any comment) the result is [None]. *)
Theorem leading_comment_is_nearest node d :
  _leading_line_comment node = Some d <->
  exists skipped c rest,
    prev_siblings node = skipped ++ c :: rest /\
    Forall (fun s => skippable s = true) skipped /\
    is_comment c = true /\
    d = Py.strip (text c).
Proof. apply leading_walk_spec. Qed.

Lemma leading_comment_is_nearest_witness :
  _leading_line_comment meth_container = Some "/// Doc".
Proof.
  apply (leading_comment_is_nearest meth_container "/// Doc").
  exists [], meth_comment, (skipn 1 (prev_siblings meth_container)).
  repeat split. constructor.
Defined.

Lemma constructor_parts_run run rest :
  Forall (fun c => is_name_token c = true) run ->
  match rest with
  | [] => True
  | c :: _ => is_name_token c = false
  end ->
  constructor_parts (run ++ rest) = map token run.
Proof.
  intros Hrun Hrest. induction Hrun as [|c run Hc _ IH]; simpl.
  - destruct rest as [|c rest]; [done|]. simpl.
    unfold is_name_token in Hrest. apply orb_false_iff in Hrest as [-> ->]. done.
  - unfold is_name_token in Hc. unfold token.
    destruct (String.eqb (node_type c) "identifier"); [by rewrite IH|].
    simpl in Hc. rewrite Hc. by rewrite IH.
Qed.

(** X12.  For a constructor signature the derived name is the concatenation
    of the leading run of identifier texts and dots among its children, up
    to the first child of another kind; without such a leading run there is
    no derived name. *)
Theorem constructor_name_is_leading_run node run rest :
  node_type node = "constructor_signature" ->
  children node = run ++ rest ->
  Forall (fun c => is_name_token c = true) run ->
  match rest with
  | [] => True
  | c :: _ => is_name_token c = false
  end ->
  _extract_function_name node =
  match run with
  | [] => None
  | _ => Some (String.concat "" (map token run))
  end.
Proof.
  intros Hty Hch Hrun Hrest. unfold _extract_function_name.
  rewrite Hty, Hch, (constructor_parts_run _ _ Hrun Hrest).
  change (Py.str_in "constructor_signature"
            ["function_signature"; "getter_signature"; "setter_signature"])
    with false.
  change (String.eqb "constructor_signature" "constructor_signature") with true.
  cbv iota. by destruct run.
Qed.

Lemma constructor_name_is_leading_run_witness :
  _extract_function_name ctor_signature = Some "Type.named".
Proof.
  apply (constructor_name_is_leading_run ctor_signature
           (firstn 3 (children ctor_signature)) (skipn 3 (children ctor_signature))).
  - reflexivity.
  - reflexivity.
  - repeat constructor.
  - reflexivity.
Defined.

(* ===================================================================== *)
(** ** Further properties: spans *)
(* ===================================================================== *)

Lemma container_covers fn_node :
  valid_node fn_node = true ->
  valid_node (container_of fn_node) = true /\
  start_row (container_of fn_node) <= start_row fn_node /\
  end_row fn_node <= end_row (container_of fn_node).
Proof.
  intros Hv. unfold container_of.
  destruct (wrapper_of fn_node) as [p|] eqn:E; [|auto].
  apply wrapper_of_parent in E.
  destruct (valid_parent _ _ Hv E) as (? & ? & ?). auto.
Qed.

(** X13.  In a well-positioned tree the line span of a function entity
    covers its signature: the entity starts no later than the signature
    starts and ends no earlier than the signature ends. *)
Theorem function_span_covers_signature language_name info f :
  valid_node (b_signature info) = true ->
  emit_function language_name info = Some f ->
  fn_line_number f <= start_row (b_signature info) + 1 /\
  end_row (b_signature info) + 1 <= fn_end_line f.
Proof.
  intros Hv He. apply emit_function_lines in He as [-> ->].
  destruct (container_covers _ Hv) as (Hc & Hstart & Hend).
  split; [lia|].
  unfold end_node_of, body_of.
  destruct (as_body (next_named_sibling (container_of (b_signature info))))
    as [b|] eqn:E1.
  - apply as_body_Some in E1.
    destruct (valid_next_named _ _ Hc E1) as [Hb Hle].
    pose proof (valid_rows _ Hb). lia.
  - destruct (as_body (next_named_sibling (b_signature info))) as [b|] eqn:E2; [|lia].
    apply as_body_Some in E2.
    destruct (valid_next_named _ _ Hv E2) as [Hb Hle].
    pose proof (valid_rows _ Hb). lia.
Qed.

Lemma function_span_covers_signature_witness :
  exists f,
    emit_function "dart" (first_bucket dflt_root) = Some f /\
    fn_line_number f <= 1 /\ 1 <= fn_end_line f.
Proof.
  destruct (emit_function "dart" (first_bucket dflt_root)) as [f|] eqn:Ef;
    [|vm_compute in Ef; discriminate Ef].
  exists f. split; [reflexivity|].
  exact (function_span_covers_signature "dart" (first_bucket dflt_root) f eq_refl Ef).
Defined.

(** When the body is found, the entity ends on the body's last line and the
    body does not start before the signature ends. *)
Lemma body_follows_signature fn_node body :
  valid_node fn_node = true ->
  body_of fn_node = Some body ->
  node_type body = "function_body" /\
  end_row fn_node <= start_row body.
Proof.
  intros Hv. unfold body_of.
  destruct (container_covers _ Hv) as (Hc & _ & Hend).
  assert (Hty : forall cand b, as_body cand = Some b -> node_type b = "function_body").
  { intros [c|] b; simpl; [|done].
    destruct (String.eqb (node_type c) "function_body") eqn:E; [|done].
    intros [= <-]. by apply String.eqb_eq. }
  destruct (as_body (next_named_sibling (container_of fn_node))) as [b|] eqn:E1.
  - intros [= <-]. split; [by eapply Hty|].
    apply as_body_Some in E1.
    destruct (valid_next_named _ _ Hc E1) as [_ Hle]. lia.
  - intros E2. split; [by eapply Hty|].
    apply as_body_Some in E2.
    by destruct (valid_next_named _ _ Hv E2) as [_ Hle].
Qed.

(* ===================================================================== *)
(** ** Further properties: import names *)
(* ===================================================================== *)

Lemma append_cons a s t : String a s +:+ t = String a (s +:+ t).
Proof. reflexivity. Qed.

Lemma append_nil_l s : "" +:+ s = s.
Proof. reflexivity. Qed.

Lemma append_nil_r s : s +:+ "" = s.
Proof.
  induction s as [|a s IH]; [done|]. by rewrite append_cons, IH.
Qed.

Lemma append_assoc s t u : (s +:+ t) +:+ u = s +:+ (t +:+ u).
Proof.
  induction s as [|a s IH]; [done|]. by rewrite !append_cons, IH.
Qed.

Lemma rev_app_acc s acc : String.rev_app s acc = String.rev s +:+ acc.
Proof.
  unfold String.rev. revert acc.
  induction s as [|a s IH]; intros acc; simpl; [done|].
  rewrite (IH (String a acc)), (IH (String a "")), append_assoc. done.
Qed.

Lemma rev_cons a s : String.rev (String a s) = String.rev s +:+ String a "".
Proof. unfold String.rev at 1. simpl. apply rev_app_acc. Qed.

Lemma rev_append s t : String.rev (s +:+ t) = String.rev t +:+ String.rev s.
Proof.
  induction s as [|a s IH].
  - by rewrite append_nil_l, append_nil_r.
  - by rewrite append_cons, !rev_cons, IH, append_assoc.
Qed.

Lemma rev_rev s : String.rev (String.rev s) = s.
Proof.
  induction s as [|a s IH]; [done|].
  by rewrite rev_cons, rev_append, IH.
Qed.

Lemma lstrip_chars_first chars s c :
  first_char (Py.lstrip_chars chars s) = Some c -> Py.chr_in c chars = false.
Proof.
  induction s as [|a s IH]; simpl; [done|].
  destruct (Py.chr_in a chars) eqn:E; [exact IH|].
  simpl. by intros [= <-].
Qed.

Lemma lstrip_chars_suffix chars s :
  exists dropped, s = dropped +:+ Py.lstrip_chars chars s.
Proof.
  induction s as [|a s [d IH]]; simpl; [by exists ""|].
  destruct (Py.chr_in a chars).
  - exists (String a d). by rewrite append_cons, <- IH.
  - by exists "".
Qed.

Lemma lstrip_chars_fixed chars s :
  (forall c, first_char s = Some c -> Py.chr_in c chars = false) ->
  Py.lstrip_chars chars s = s.
Proof.
  destruct s as [|a s]; simpl; [done|].
  intros H. by rewrite (H a eq_refl).
Qed.

Lemma strip_chars_first chars s c :
  first_char (Py.strip_chars chars s) = Some c -> Py.chr_in c chars = false.
Proof.
  unfold Py.strip_chars, Py.rstrip_chars.
  set (t := Py.lstrip_chars chars s).
  destruct (lstrip_chars_suffix chars (String.rev t)) as [d Hd].
  set (u := Py.lstrip_chars chars (String.rev t)) in *.
  assert (Ht : t = String.rev u +:+ String.rev d).
  { by rewrite <- rev_append, <- Hd, rev_rev. }
  intros Hc. apply (lstrip_chars_first chars s). fold t. rewrite Ht.
  destruct (String.rev u); [done|exact Hc].
Qed.

Lemma strip_chars_last chars s c :
  last_char (Py.strip_chars chars s) = Some c -> Py.chr_in c chars = false.
Proof.
  unfold last_char, Py.strip_chars, Py.rstrip_chars. rewrite rev_rev.
  apply lstrip_chars_first.
Qed.

Lemma strip_chars_idempotent chars s :
  Py.strip_chars chars (Py.strip_chars chars s) = Py.strip_chars chars s.
Proof.
  set (x := Py.strip_chars chars s).
  unfold Py.strip_chars at 1, Py.rstrip_chars.
  rewrite (lstrip_chars_fixed chars x) by apply strip_chars_first.
  rewrite (lstrip_chars_fixed chars (String.rev x)); [apply rev_rev|].
  apply strip_chars_last.
Qed.

(** X14.  The name of an import record neither starts nor ends with a quote
    character, however many quotes surrounded the literal, and stripping
    the quotes again leaves it unchanged. *)
Theorem import_names_unquoted self root i :
  In i (_find_imports self root) ->
  (forall c, first_char (imp_name i) = Some c -> Py.chr_in c quote_chars = false) /\
  (forall c, last_char (imp_name i) = Some c -> Py.chr_in c quote_chars = false) /\
  Py.strip_chars quote_chars (imp_name i) = imp_name i.
Proof.
  intros Hi. apply find_imports_origin in Hi as (node & _ & ->).
  cbn [imp_name import_entity]. split; [|split].
  - apply strip_chars_first.
  - apply strip_chars_last.
  - apply strip_chars_idempotent.
Qed.

Lemma import_names_unquoted_witness :
  match _find_imports sample_parser imp_root with
  | i :: _ => Py.strip_chars quote_chars (imp_name i) = imp_name i
  | [] => False
  end.
Proof.
  destruct (_find_imports sample_parser imp_root) as [|i rest] eqn:E;
    [vm_compute in E; discriminate E|].
  apply (import_names_unquoted sample_parser imp_root i).
  rewrite E. by left.
Defined.

(* ===================================================================== *)
(** ** Further properties: the pre-scan index *)
(* ===================================================================== *)

Lemma scan_file_unreadable e fs query m file_path :
  readable fs file_path = false -> scan_file e fs query m file_path = m.
Proof.
  unfold readable, scan_file. by destruct (read_text fs file_path).
Qed.

(** X15.  A file that cannot be read contributes nothing and disturbs
    nothing: the index is the one obtained from the readable files alone. *)
Theorem pre_scan_skips_unreadable e fs files :
  pre_scan_dart e fs files =
  pre_scan_dart e fs (List.filter (readable fs) files).
Proof.
  unfold pre_scan_dart.
  destruct (compile_query e prescan_pattern) as [query|]; [|done].
  generalize (∅ : gmap string (list string)) as m.
  induction files as [|f files IH]; intros m; simpl; [done|].
  destruct (readable fs f) eqn:E; simpl; [apply IH|].
  rewrite scan_file_unreadable by done. apply IH.
Qed.

(** Where an entry of the index comes from. *)
Lemma add_symbol_origin (P : string -> string -> Prop) fs file_path m node :
  (forall sym paths p, m !! sym = Some paths -> In p paths -> P sym p) ->
  (forall p, resolve fs file_path = Some p -> P (text node) p) ->
  forall sym paths p,
    index_of (add_symbol fs file_path m node) !! sym = Some paths ->
    In p paths -> P sym p.
Proof.
  intros Hm Hnew. unfold add_symbol.
  set (m1 := match m !! text node with Some _ => m | None => <[text node := []]> m end).
  assert (Hm1 : forall sym paths p, m1 !! sym = Some paths -> In p paths -> P sym p).
  { subst m1. destruct (m !! text node) eqn:E; [exact Hm|].
    intros sym paths p. rewrite lookup_insert. case_decide.
    - intros [= <-] [].
    - apply Hm. }
  destruct (resolve fs file_path) as [fullpath|]; [|exact Hm1].
  destruct (negb (Py.str_in fullpath (default [] (m1 !! text node)))); [|exact Hm1].
  simpl. intros sym paths p. rewrite lookup_insert. case_decide as Hk.
  - intros [= <-] Hin. subst sym. apply in_app_or in Hin as [Hin | [<- | []]].
    + destruct (m1 !! text node) as [l|] eqn:El; [|destruct Hin].
      by eapply Hm1.
    + by apply Hnew.
  - apply Hm1.
Qed.

Lemma scan_nodes_origin (P : string -> string -> Prop) fs file_path nodes m :
  (forall sym paths p, m !! sym = Some paths -> In p paths -> P sym p) ->
  (forall node p, In node nodes -> resolve fs file_path = Some p -> P (text node) p) ->
  forall sym paths p,
    index_of (scan_nodes fs file_path nodes m) !! sym = Some paths ->
    In p paths -> P sym p.
Proof.
  revert m. induction nodes as [|node rest IH]; intros m Hm Hnew; simpl; [exact Hm|].
  pose proof (add_symbol_origin P fs file_path m node Hm
                (fun p => Hnew node p (or_introl eq_refl))) as Hstep.
  destruct (add_symbol fs file_path m node) as [m'|m']; simpl in Hstep; [|exact Hstep].
  apply IH; [exact Hstep|]. intros n p Hn. apply Hnew. by right.
Qed.

(** X16.  Every path the index lists under a symbol is the resolved path of
    a readable file of the list in which the pre-scan query captured a name
    node with that symbol as its text. *)
Theorem pre_scan_paths_have_origin e fs files sym paths p :
  pre_scan_dart e fs files !! sym = Some paths ->
  In p paths ->
  exists query f src node,
    compile_query e prescan_pattern = Some query /\
    In f files /\
    read_text fs f = Some src /\
    resolve fs f = Some p /\
    In node (name_nodes (query_captures e query
                           (root_node src (parse_bytes e src)))) /\
    text node = sym.
Proof.
  unfold pre_scan_dart.
  destruct (compile_query e prescan_pattern) as [query|]; [|by rewrite lookup_empty].
  set (P := fun sym p => exists f src node,
              In f files /\ read_text fs f = Some src /\ resolve fs f = Some p /\
              In node (name_nodes (query_captures e query
                                     (root_node src (parse_bytes e src)))) /\
              text node = sym).
  assert (Hgen : forall fl m,
    (forall f, In f fl -> In f files) ->
    (forall sym paths p, m !! sym = Some paths -> In p paths -> P sym p) ->
    forall sym paths p,
      fold_left (scan_file e fs query) fl m !! sym = Some paths ->
      In p paths -> P sym p).
  { induction fl as [|f fl IH]; intros m Hsub Hm; simpl; [exact Hm|].
    apply IH; [intros f' Hf'; apply Hsub; by right|].
    unfold scan_file. destruct (read_text fs f) as [src|] eqn:Er; [|exact Hm].
    rewrite scan_captures_flat. apply scan_nodes_origin; [exact Hm|].
    intros node q Hnode Hres. exists f, src, node.
    split; [apply Hsub; by left|]. done. }
  intros Hlook Hin.
  destruct (Hgen files ∅ (fun _ H => H)
              (fun s l q H => ltac:(by rewrite lookup_empty in H))
              sym paths p Hlook Hin) as (f & src & node & H).
  by exists query, f, src, node.
Qed.

Lemma pre_scan_paths_have_origin_witness :
  exists query f src node,
    compile_query sample_engine prescan_pattern = Some query /\
    In f ["lib/foo.dart"; "lib/none.dart"; "lib/foo2.dart"] /\
    read_text sample_fs f = Some src /\
    resolve sample_fs f = Some "/repo/lib/foo2.dart" /\
    In node (name_nodes (query_captures sample_engine query
                           (root_node src (parse_bytes sample_engine src)))) /\
    text node = "Foo".
Proof.
  apply (pre_scan_paths_have_origin sample_engine sample_fs
           ["lib/foo.dart"; "lib/none.dart"; "lib/foo2.dart"] "Foo"
           ["/repo/lib/foo.dart"; "/repo/lib/foo2.dart"]).
  - vm_compute. reflexivity.
  - right. by left.
Defined.

(** X17.  Every name node the pre-scan query captures in a readable file of
    the list, whose path resolves, is indexed: the index lists the file's
    resolved path under the node's text. *)
Theorem pre_scan_indexes_every_name e fs files query f src p node :
  compile_query e prescan_pattern = Some query ->
  In f files ->
  read_text fs f = Some src ->
  resolve fs f = Some p ->
  In node (name_nodes (query_captures e query (root_node src (parse_bytes e src)))) ->
  exists paths, pre_scan_dart e fs files !! text node = Some paths /\ In p paths.
Proof.
  intros Hq Hf Hread Hres Hnode. unfold pre_scan_dart. rewrite Hq.
  pose proof (scan_files_known e fs query files ∅ f Hf) as Hk.
  unfold file_nodes, visited in Hk. rewrite Hread, Hres in Hk.
  rewrite List.Forall_forall in Hk. specialize (Hk _ Hnode).
  unfold known in Hk. by rewrite Hres in Hk.
Qed.

Lemma pre_scan_indexes_every_name_witness :
  exists paths,
    pre_scan_dart sample_engine sample_fs ["lib/foo.dart"; "lib/meth.dart"] !! "m"
      = Some paths /\
    In "/repo/lib/meth.dart" paths.
Proof.
  destruct (pick meth_root [[0; 2; 2; 0; 1]]) as [|node rest] eqn:E;
    [vm_compute in E; discriminate E|].
  destruct (pre_scan_indexes_every_name sample_engine sample_fs
              ["lib/foo.dart"; "lib/meth.dart"] prescan_pattern "lib/meth.dart"
              meth_src "/repo/lib/meth.dart" node eq_refl
              (or_intror (or_introl eq_refl)) eq_refl eq_refl)
    as (paths & Hl & Hp).
  - vm_compute in E. injection E as <- _. vm_compute. right. by left.
  - exists paths. split; [|exact Hp].
    vm_compute in E. injection E as <- _. exact Hl.
Defined.

(* ===================================================================== *)
(** ** Further properties: parameters and enclosing signatures *)
(* ===================================================================== *)

(** X19.  When the captured parameter list has no nested parameter list
    among its children, the arguments are the names of its children of type
    [simple_formal_parameter], in source order; a child without a name
    field is skipped and children of every other type contribute nothing. *)
Theorem args_are_simple_parameter_names p :
  (forall child, In child (children p) ->
     node_type child <> "formal_parameter_list") ->
  extract_params (Some p) =
  omap (fun child => text <$> child_by_field_name child "name")
       (List.filter (fun child => String.eqb (node_type child) "simple_formal_parameter")
                    (children p)).
Proof.
  unfold extract_params. induction (children p) as [|child rest IH]; intros H; [done|].
  cbn [flat_map List.filter].
  assert (Hne : String.eqb (node_type child) "formal_parameter_list" = false).
  { apply String.eqb_neq. apply H. by left. }
  rewrite Hne, IH by (intros c Hc; apply H; by right).
  destruct (String.eqb (node_type child) "simple_formal_parameter"); [|done].
  change (omap ?f (child :: ?l))
    with (match f child with Some y => y :: omap f l | None => omap f l end).
  unfold param_name, _text.
  by destruct (child_by_field_name child "name").
Qed.

Lemma args_are_simple_parameter_names_witness :
  extract_params (b_params (first_bucket ctor_root)) = [].
Proof.
  destruct (b_params (first_bucket ctor_root)) as [p|] eqn:E; [|reflexivity].
  rewrite (args_are_simple_parameter_names p).
  - vm_compute in E. injection E as <-. reflexivity.
  - intros child Hin Hty. vm_compute in E. injection E as <-.
    vm_compute in Hin.
    repeat (destruct Hin as [<- | Hin]; [vm_compute in Hty; discriminate Hty|]).
    destruct Hin.
Defined.

Lemma find_spec {A : Type} (f : A -> bool) (l : list A) (x : A) :
  List.find f l = Some x <->
  exists before after,
    l = before ++ x :: after /\
    Forall (fun y => f y = false) before /\ f x = true.
Proof.
  induction l as [|y l IH]; simpl.
  - split; [done|]. intros (b & a & H & _). by destruct b.
  - destruct (f y) eqn:E.
    + split.
      * intros [= <-]. by exists [], l.
      * intros ([|z b] & a & H & Hb & Hx).
        -- by injection H as -> _.
        -- injection H as -> _. apply Forall_cons_1 in Hb as [Hz _]. congruence.
    + rewrite IH. split.
      * intros (b & a & -> & Hb & Hx). exists (y :: b), a.
        split; [done|]. split; [by constructor|done].
      * intros ([|z b] & a & H & Hb & Hx).
        -- injection H as -> _. congruence.
        -- injection H as -> ->. apply Forall_cons_1 in Hb as [_ Hb].
           by exists b, a.
Qed.

Lemma find_signature_spec node sig :
  find_signature node = Some sig <->
  exists below above,
    self_and_ancestors node = below ++ sig :: above /\
    Forall (fun n => Py.str_in (node_type n) signature_types = false) below /\
    Py.str_in (node_type sig) signature_types = true.
Proof.
  apply (find_spec (fun cur => Py.str_in (node_type cur) signature_types)).
Qed.

Lemma ancestors_enclose src t up a :
  valid_node {| source := src; focus := t; ctx := up |} = true ->
  In a (ancestors_from src t up) ->
  valid_node a = true /\
  start_row a <= start_row {| source := src; focus := t; ctx := up |} /\
  end_row {| source := src; focus := t; ctx := up |} <= end_row a.
Proof.
  revert t. induction up as [|f up IH]; intros t Hv; simpl.
  - intros [<- | []]. auto.
  - intros [<- | Hin]; [auto|].
    destruct (valid_parent {| source := src; focus := t; ctx := f :: up |}
                {| source := src; focus := plug f t; ctx := up |} Hv eq_refl)
      as (Hp & Hs & He).
    destruct (IH _ Hp Hin) as (Ha & Hs' & He').
    split; [exact Ha|]. split; lia.
Qed.

(** X20.  The signature a capture is attributed to is the nearest node of a
    signature type on the chain from the captured node up to the root, and
    in a well-positioned tree its lines enclose the captured node's. *)
Theorem find_signature_encloses node sig :
  valid_node node = true ->
  find_signature node = Some sig ->
  (exists below above,
     self_and_ancestors node = below ++ sig :: above /\
     Forall (fun n => Py.str_in (node_type n) signature_types = false) below) /\
  In (node_type sig) signature_types /\
  start_row sig <= start_row node /\ end_row node <= end_row sig.
Proof.
  intros Hv Hsig.
  pose proof (find_signature_ancestor _ _ Hsig) as Hin.
  apply find_signature_spec in Hsig as (below & above & Hch & Hbelow & Hty).
  split; [by exists below, above|].
  split; [by apply str_in_true|].
  destruct node as [src t up].
  by destruct (ancestors_enclose src t up sig Hv Hin) as (_ & ? & ?).
Qed.

Lemma find_signature_encloses_witness :
  In (node_type ctor_signature) signature_types /\
  start_row ctor_signature <= start_row ctor_last_name /\
  end_row ctor_last_name <= end_row ctor_signature.
Proof.
  exact (proj2 (find_signature_encloses ctor_last_name ctor_signature
                  eq_refl eq_refl)).
Defined.
